(** * opera-bookmarks: the bookmark tree builder and the HTML generator of bm.go

    A shallow embedding of [bm.go]: the scalar readers ([readString],
    [readInt], [readTimeStamp]), the tree builder ([buildTree],
    [makeRootFolder], [makeChildFolder], [makeLink], [add], [mapError]) and
    the HTML generator ([htmlText], [htmlTag], [htmlLink], [htmlList],
    [folderName], [folderLinks], [folderList], [foldersToHTML]).

    Conventions.
    - A Go [string] is a sequence of bytes: [string] of the Standard Library.
    - A decoded JSON value ([interface{}] as [encoding/json] fills it) is the
      inductive [json]; a [map[string]interface{}] is a list of entries.  The
      list gives the order in which the one [range] statement over the map
      visits it (Go leaves that order unspecified; no map is ranged over
      twice), and index expressions [m[k]] are [lookup].  A Go map holds a
      key once; no property below depends on it.
    - A Go function returning [(T, error)] returns a [result T]: every caller
      in [bm.go] drops the value when the error is not nil.
    - [int64] is [Z] with the wrap-around written out ([wrap64]). *)

From Equations Require Import Equations.
From Stdlib Require Import String Ascii List ZArith Lia Bool Permutation.
From Stdlib Require Import PrimFloat DecimalString.
From Stdlib Require DecimalPos DecimalZ Finite.
Import ListNotations.

Set Warnings "-register-all".

Local Open Scope string_scope.
Local Open Scope Z_scope.

(* ================================================================= *)
(** ** Strings *)

(** The double quote character (byte 34). *)
Definition dquote : string := String "034"%char EmptyString.

(** [strings.Join(elems, sep)]. *)
Fixpoint Join (elems : list string) (sep : string) : string :=
  match elems with
  | [] => EmptyString
  | [e] => e
  | e :: rest => e ++ sep ++ Join rest sep
  end.

(** [len(s) > 0] *)
Definition nonEmpty (s : string) : bool :=
  match s with EmptyString => false | String _ _ => true end.

(** [strings.Contains] for a single byte. *)
Fixpoint containsByte (c : ascii) (s : string) : bool :=
  match s with
  | EmptyString => false
  | String c' s' => Ascii.eqb c c' || containsByte c s'
  end.

(** [strings.HasSuffix(s, suffix)] as a proposition. *)
Definition HasSuffix (s suffix : string) : Prop := exists p, s = p ++ suffix.

(** The verb [%q] of package [fmt] ([strconv.Quote]): a double-quoted Go
    string literal.  The function belongs to Go's library (it consults the
    Unicode tables), the program only splices its result into messages: it
    is an interface here, and every theorem holds for each implementation. *)
Class Quoter := Quote : string -> string.

(** [%q] on printable ASCII text: the text between double quotes, with a
    backslash before each double quote and each backslash.  Used for the
    closed examples, whose quoted strings are printable ASCII. *)
Definition quoteByte (c : ascii) : string :=
  if Ascii.eqb c "034" || Ascii.eqb c "\" then String "\" (String c EmptyString)
  else String c EmptyString.

Fixpoint quoteBytes (s : string) : string :=
  match s with
  | EmptyString => EmptyString
  | String c s' => quoteByte c ++ quoteBytes s'
  end.

Definition asciiQuote : Quoter := fun s => dquote ++ quoteBytes s ++ dquote.

(** [strconv.Itoa(i)]: the decimal text of an [int]. *)
Definition Itoa (i : Z) : string := NilZero.string_of_int (Z.to_int i).

(** [html.EscapeString]: the replacer of package [html], five characters. *)
Definition escapeByte (c : ascii) : string :=
  if Ascii.eqb c "&" then "&amp;"
  else if Ascii.eqb c "'" then "&#39;"
  else if Ascii.eqb c "<" then "&lt;"
  else if Ascii.eqb c ">" then "&gt;"
  else if Ascii.eqb c "034" then "&#34;"
  else String c EmptyString.

Fixpoint EscapeString (s : string) : string :=
  match s with
  | EmptyString => EmptyString
  | String c s' => escapeByte c ++ EscapeString s'
  end.

(* ================================================================= *)
(** ** Decoded JSON *)

(** What [json.Decoder.Decode] stores in an [interface{}]: [nil], [bool],
    [float64], [string], [[]interface{}] and [map[string]interface{}]. *)
Inductive json :=
| JNull
| JBool (b : bool)
| JNumber (f : float)
| JString (s : string)
| JArray (elems : list json)
| JObject (entries : list (string * json)).

Definition object := list (string * json).

(** [v, ok = data[key]] *)
Fixpoint lookup (key : string) (data : object) : option json :=
  match data with
  | [] => None
  | (k, v) :: rest => if String.eqb key k then Some v else lookup key rest
  end.

(* ================================================================= *)
(** ** Errors *)

(** The dynamic types an [error] of the program has: the struct
    [KeyNotFoundError], the pointer [*ParserError], and the library's own
    error of [errors.New] and [fmt.Errorf], which is its message. *)
Inductive error :=
| KeyNotFoundError (key : string)
| ErrorString (msg : string)
| ParserError (path msg : string).

Inductive result (A : Type) :=
| Ok (a : A)
| Err (e : error).
Arguments Ok {A} a.
Arguments Err {A} e.

Section Reader.
Context {Q : Quoter}.

(** [func (e KeyNotFoundError) Error()], [func (e *ParserError) Error()] *)
Definition Error (e : error) : string :=
  match e with
  | KeyNotFoundError key => "Tag " ++ Quote key ++ " is not found"
  | ErrorString msg => msg
  | ParserError path msg => "Node " ++ path ++ ": " ++ msg
  end.

(** [func mapError(key string, err error) error].  The [*ParserError] is
    updated in place; no other reference to it exists, so the updated error
    is returned as a new value. *)
Definition mapError (key : string) (err : error) : error :=
  match err with
  | ParserError path msg =>
      if nonEmpty path then ParserError (key ++ "/" ++ path) msg
      else ParserError key msg
  | _ => ParserError key (Error err)
  end.

(* ================================================================= *)
(** ** Data converters *)

(** [func readString(key string, data map[string]interface{}) (s string, err error)] *)
Definition readString (key : string) (data : object) : result string :=
  match lookup key data with
  | None => Err (KeyNotFoundError key)
  | Some (JString s) => Ok s
  | Some _ => Err (ErrorString ("Tag " ++ Quote key ++ " is not a string"))
  end.

End Reader.

(** [strconv.ParseUint(s, 10, _)] before the range check: the digits of [s]
    read most significant first; [None] on a byte that is no digit. *)
Definition isDigit (c : ascii) : bool :=
  let n := Z.of_N (N_of_ascii c) in (48 <=? n) && (n <=? 57).

Fixpoint parseDigits (s : string) (acc : Z) : option Z :=
  match s with
  | EmptyString => Some acc
  | String c s' =>
      if isDigit c then parseDigits s' (acc * 10 + (Z.of_N (N_of_ascii c) - 48))
      else None
  end.

(** [strconv.ParseInt(s, 10, bitSize)]: an optional sign, then at least one
    decimal digit and nothing else (a syntax error otherwise); the value must
    fit a signed integer of [bitSize] bits (a range error otherwise);
    [bitSize] 0 stands for [int], 64 bits, and a width outside 0..64 is an
    error.  [None] is a non-nil error. *)
Definition ParseInt (s : string) (bitSize : Z) : option Z :=
  let bits := if bitSize =? 0 then 64 else bitSize in
  if (bits <? 0) || (64 <? bits) then None else
  match s with
  | EmptyString => None
  | String c s' =>
      let neg := Ascii.eqb c "-" in
      let digits := if Ascii.eqb c "+" || neg then s' else s in
      match digits with
      | EmptyString => None
      | _ =>
          match parseDigits digits 0 with
          | None => None
          | Some un =>
              let cutoff := 2 ^ (bits - 1) in
              if negb neg && (cutoff <=? un) then None
              else if neg && (cutoff <? un) then None
              else Some (if neg then - un else un)
          end
      end
  end.

Section Integers.
Context {Q : Quoter}.

(** [func readInt(key string, data map[string]interface{}, bitSize int) (val int64, err error)] *)
Definition readInt (key : string) (data : object) (bitSize : Z) : result Z :=
  match readString key data with
  | Err e => Err e
  | Ok s =>
      match ParseInt s bitSize with
      | Some val => Ok val
      | None =>
          Err (ErrorString ("Value for tag " ++ Quote key
                              ++ " is not an integer: " ++ Quote s))
      end
  end.

End Integers.

(* ================================================================= *)
(** ** Time *)

(** [int64] arithmetic wraps around. *)
Definition wrap64 (z : Z) : Z := (z + 2 ^ 63) mod 2 ^ 64 - 2 ^ 63.

(** [time.Time] in UTC: seconds since January 1, year 1 00:00:00 UTC
    ([int64]) and nanoseconds within the second, in [0, 999999999]. *)
Record Time := mkTime { sec : Z; nsec : Z }.

(** The zero value of [time.Time]. *)
Definition zeroTime : Time := mkTime 0 0.

(** [time.Duration] is an [int64] count of nanoseconds. *)
Definition Duration := Z.

(** [func (t Time) Add(d Duration) Time] of package [time] (as in Go 1.7,
    the version the README names; later versions agree where the seconds do
    not overflow); Go's [/] and [%] truncate toward zero. *)
Definition Add (t : Time) (d : Duration) : Time :=
  let s := wrap64 (sec t + Z.quot d 1000000000) in
  let n := nsec t + Z.rem d 1000000000 in
  if 1000000000 <=? n then mkTime (wrap64 (s + 1)) (n - 1000000000)
  else if n <? 0 then mkTime (wrap64 (s - 1)) (n + 1000000000)
  else mkTime s n.

(** [var googleEpoch = time.Date(1601, time.January, 1, 0, 0, 0, 0, time.UTC)]:
    1600 years after January 1 of year 1, four Gregorian cycles of 146097
    days. *)
Definition googleEpoch : Time := mkTime (4 * 146097 * 86400) 0.

(** [const twoCenturies = 200 * 365 * 24 * 60 * 60 * 1000000 // microseconds] *)
Definition twoCenturies : Z := 200 * 365 * 24 * 60 * 60 * 1000000.

Lemma twoCenturies_value : twoCenturies = 6307200000000000.
Proof. reflexivity. Qed.

(** The loop of [readTimeStamp]:
    [for ; val >= twoCenturies; val -= twoCenturies { ts = ts.Add(time.Duration(twoCenturies * 1000)) }],
    returning the final [val] and [ts].  The constant [twoCenturies * 1000]
    fits [int64] (the compiler checks the conversion). *)
Equations? chunks (val : Z) (ts : Time) : Z * Time
  by wf (Z.to_nat (val / twoCenturies)) lt :=
  chunks val ts with Z_le_dec twoCenturies val := {
    | left _ => chunks (wrap64 (val - twoCenturies)) (Add ts (twoCenturies * 1000))
    | right _ => (val, ts) }.
Proof.
  rewrite twoCenturies_value in *.
  assert (Hw : wrap64 (val - 6307200000000000) <= val - 6307200000000000).
  { unfold wrap64.
    pose proof (Z.mod_le (val - 6307200000000000 + 2 ^ 63) (2 ^ 64)).
    lia. }
  assert (Hd : val / 6307200000000000
               = (val - 6307200000000000) / 6307200000000000 + 1).
  { replace val with (val - 6307200000000000 + 1 * 6307200000000000) at 1 by ring.
    rewrite Z.div_add by lia. reflexivity. }
  assert (0 <= (val - 6307200000000000) / 6307200000000000)
    by (apply Z.div_pos; lia).
  pose proof (Z.div_le_mono _ _ 6307200000000000 eq_refl Hw).
  lia.
Qed.

(** The decoding part of [readTimeStamp]: from [ts = googleEpoch] to the last
    [ts = ts.Add(time.Duration(val * 1000))]. *)
Definition decodeTimeStamp (val : Z) : Time :=
  let '(val', ts) := chunks val googleEpoch in
  Add ts (wrap64 (val' * 1000)).

(* ================================================================= *)
(** ** The bookmark tree *)

(** [type Node struct { Name, Key string; Added, Modified time.Time }] *)
Record Node := mkNode {
  Name : string;
  Key : string;
  Added : Time;
  Modified : Time
}.

(** [type Link struct { Node; URL string }] *)
Record Link := mkLink { LinkNode : Node; URL : string }.

(** [type Folder struct { Node; Links []*Link; Folders []*Folder }] *)
Inductive Folder :=
| mkFolder (node : Node) (links : list Link) (folders : list Folder).

Definition FolderNode (f : Folder) : Node := let 'mkFolder n _ _ := f in n.
Definition Links (f : Folder) : list Link := let 'mkFolder _ l _ := f in l.
Definition Folders (f : Folder) : list Folder := let 'mkFolder _ _ fs := f in fs.

(** [func (folder *Folder) addFolder(child *Folder, err error) error] and
    [addLink]: the receiver is updated in place; here the updated folder is
    returned, and an error leaves no folder (the caller drops it). *)
Definition addFolder (folder : Folder) (r : result Folder) : result Folder :=
  match r with
  | Ok child =>
      Ok (mkFolder (FolderNode folder) (Links folder) (Folders folder ++ [child]))
  | Err err => Err err
  end.

Definition addLink (folder : Folder) (r : result Link) : result Folder :=
  match r with
  | Ok child =>
      Ok (mkFolder (FolderNode folder) (Links folder ++ [child]) (Folders folder))
  | Err err => Err err
  end.

Section Builder.
Context {Q : Quoter}.

(** [func readTimeStamp(key string, data map[string]interface{}) (ts time.Time, err error)] *)
Definition readTimeStamp (key : string) (data : object) : result Time :=
  match readInt key data 64 with
  | Err e => Err e
  | Ok val => Ok (decodeTimeStamp val)
  end.

(** [func (node *Node) read(key string, data map[string]interface{}) (err error)]:
    when [date_modified] is not found, [Modified] keeps the zero [time.Time]
    that [readTimeStamp] returned with the error. *)
Definition read (key : string) (data : object) : result Node :=
  match readString "name" data with
  | Err err => Err err
  | Ok name =>
      match readTimeStamp "date_added" data with
      | Err err => Err err
      | Ok added =>
          match readTimeStamp "date_modified" data with
          | Ok modified => Ok (mkNode name key added modified)
          | Err (KeyNotFoundError _) => Ok (mkNode name key added zeroTime)
          | Err err => Err err
          end
      end
  end.

(** [func makeLink(key string, node map[string]interface{}) ( *Link, error)] *)
Definition makeLink (key : string) (node : object) : result Link :=
  match read key node with
  | Err err => Err (mapError key err)
  | Ok nd =>
      match readString "url" node with
      | Err err => Err (mapError key err)
      | Ok url => Ok (mkLink nd url)
      end
  end.

(** The message of [&ParserError{key, "Unexpected "children" type"}]. *)
Definition unexpectedChildren : string :=
  "Unexpected " ++ dquote ++ "children" ++ dquote ++ " type".

(** The folder [makeRootFolder] starts from: [&Folder{Node: Node{Name: key, Key: key}}]. *)
Definition newRootFolder (key : string) : Folder :=
  mkFolder (mkNode key key zeroTime zeroTime) [] [].

(** *** The recursion

    [add], [makeChildFolder] and [makeRootFolder] call each other.  The two
    loops are written over an arbitrary dispatcher first; [add] then closes
    the recursion on the JSON value, and [makeChildFolder], [makeRootFolder]
    and the equation [add_eq] below give the three functions as [bm.go] has
    them. *)
Section Loops.
Variable dispatch : Folder -> string -> json -> result Folder.

(** [for i, v := range cc { if err := folder.add("#"+strconv.Itoa(i), v); err != nil { return nil, mapError(key, err) } }],
    from index [i] on. *)
Fixpoint rangeChildren (key : string) (i : nat) (cc : list json) (folder : Folder)
  : result Folder :=
  match cc with
  | [] => Ok folder
  | v :: rest =>
      match dispatch folder ("#" ++ Itoa (Z.of_nat i)) v with
      | Err err => Err (mapError key err)
      | Ok folder' => rangeChildren key (S i) rest folder'
      end
  end.

(** [for k, v := range node { if err := folder.add(k, v); err != nil { return nil, mapError(key, err) } }] *)
Fixpoint rangeEntries (key : string) (node : object) (folder : Folder)
  : result Folder :=
  match node with
  | [] => Ok folder
  | (k, v) :: rest =>
      match dispatch folder k v with
      | Err err => Err (mapError key err)
      | Ok folder' => rangeEntries key rest folder'
      end
  end.

(** [if c, ok := node["children"]; ok { ... }] as a scan of the entries, so
    that the elements of the array are visibly parts of the node. *)
Fixpoint scanChildren (key : string) (data : object) (folder : Folder)
  : result Folder :=
  match data with
  | [] => Ok folder
  | (k, c) :: rest =>
      if String.eqb "children" k then
        match c with
        | JArray cc => rangeChildren key 0 cc folder
        | _ => Err (ParserError key unexpectedChildren)
        end
      else scanChildren key rest folder
  end.

Definition dispatchBody (root : Folder) (key : string) (item : json)
  : result Folder :=
  match item with
  | JObject node =>
      match lookup "type" node with
      | Some t =>
          match t with
          | JString tag =>
              if String.eqb tag "folder" then
                addFolder root
                  match read key node with
                  | Err err => Err (mapError key err)
                  | Ok nd => scanChildren key node (mkFolder nd [] [])
                  end
              else if String.eqb tag "url" then addLink root (makeLink key node)
              else Err (ParserError key ("Unknown type " ++ Quote tag))
          | _ => Err (ParserError key "Type tag is not a string")
          end
      | None => addFolder root (rangeEntries key node (newRootFolder key))
      end
  | _ => Err (ParserError key "Unexpected node type")
  end.

End Loops.

(** [func (root *Folder) add(key string, item interface{}) error]: the item
    dispatcher.  The receiver is updated in place; here the updated folder is
    returned. *)
Fixpoint add (root : Folder) (key : string) (item : json) {struct item}
  : result Folder :=
  dispatchBody add root key item.

(** [func makeChildFolder(key string, node map[string]interface{}) ( *Folder, error)] *)
Definition makeChildFolder (key : string) (node : object) : result Folder :=
  match read key node with
  | Err err => Err (mapError key err)
  | Ok nd =>
      let folder := mkFolder nd [] [] in
      match lookup "children" node with
      | Some c =>
          match c with
          | JArray cc => rangeChildren add key 0 cc folder
          | _ => Err (ParserError key unexpectedChildren)
          end
      | None => Ok folder
      end
  end.

(** [func makeRootFolder(key string, node map[string]interface{}) ( *Folder, error)] *)
Definition makeRootFolder (key : string) (node : object) : result Folder :=
  rangeEntries add key node (newRootFolder key).

(** [func buildTree(key string, item interface{}) ( *Folder, error)] *)
Definition buildTree (key : string) (item : json) : result Folder :=
  match item with
  | JObject node => makeRootFolder key node
  | _ => Err (ErrorString "Invalid root item type")
  end.

End Builder.

(* ================================================================= *)
(** ** HTML generator *)

(** [type StringWriter interface { WriteString(string) (int, error) }]: a
    sink is a state, a write returns the next state and the error or nil.
    The byte count is left out: [htmlRawText], the only caller, drops it. *)
Class StringWriter (W : Type) := WriteString : W -> string -> W * option error.

(** [type fhtml func(StringWriter) error] *)
Definition fhtml (W : Type) : Type := W -> W * option error.

(** The line feed (byte 10). *)
Definition newline : string := String "010"%char EmptyString.

(** [const htmlHeader] *)
Definition htmlHeader : string :=
  "<!DOCTYPE HTML><html>" ++ newline
  ++ "<head>" ++ newline
  ++ "<meta charset=" ++ dquote ++ "utf-8" ++ dquote
  ++ "/><title>Bookmarks</title><style> ul { list-style-type: disc; } </style>"
  ++ newline
  ++ "</head>" ++ newline.

Section Generator.
Context {W : Type} {SW : StringWriter W}.

(** [func htmlNil(_ StringWriter) error] *)
Definition htmlNil : fhtml W := fun dest => (dest, None).

(** [func htmlRawText(text string) fhtml] *)
Definition htmlRawText (text : string) : fhtml W :=
  fun dest => WriteString dest text.

(** [func htmlText(text string) fhtml] *)
Definition htmlText (text : string) : fhtml W :=
  htmlRawText (EscapeString text).

(** [func htmlList(fns []fhtml) fhtml]: the loop breaks at the first error. *)
Fixpoint htmlList (fns : list (fhtml W)) : fhtml W :=
  fun dest =>
    match fns with
    | [] => (dest, None)
    | f :: rest =>
        match f dest with
        | (dest', None) => htmlList rest dest'
        | (dest', Some err) => (dest', Some err)
        end
    end.

(** [func htmlListArgs(fns ...fhtml) fhtml] *)
Definition htmlListArgs (fns : list (fhtml W)) : fhtml W := htmlList fns.

(** [func htmlTag(tag string, fn fhtml) fhtml] *)
Definition htmlTag (tag : string) (fn : fhtml W) : fhtml W :=
  htmlListArgs
    [htmlRawText ("<" ++ tag ++ ">"); fn; htmlRawText ("</" ++ tag ++ ">")].

(** [func htmlLink(link, text string) fhtml], the format [<a href="%s">%s</a>] *)
Definition htmlLink (link text : string) : fhtml W :=
  htmlRawText ("<a href=" ++ dquote ++ EscapeString link ++ dquote ++ ">"
                 ++ EscapeString text ++ "</a>").

(** [func folderName(folder *Folder) fhtml] *)
Definition folderName (folder : Folder) : fhtml W :=
  htmlTag "h4" (htmlText (Name (FolderNode folder))).

(** [func folderLinks(folder *Folder) fhtml] *)
Definition folderLinks (folder : Folder) : fhtml W :=
  match Links folder with
  | [] => htmlNil
  | links =>
      htmlTag "dl"
        (htmlList
           (map (fun lnk => htmlTag "dt" (htmlLink (URL lnk) (Name (LinkNode lnk))))
                links))
  end.

(** One element of the slice [fns] that [folderList] fills:
    [htmlTag("li", htmlListArgs(folderName(folder), folderLinks(folder), folderList(folder.Folders)))].
    The recursion of [folderList] descends through this element. *)
Fixpoint folderItem (folder : Folder) : fhtml W :=
  htmlTag "li"
    (htmlListArgs
       [folderName folder;
        folderLinks folder;
        match Folders folder with
        | [] => htmlNil
        | folders => htmlTag "ul" (htmlList (map folderItem folders))
        end]).

(** [func folderList(folders []*Folder) fhtml] *)
Definition folderList (folders : list Folder) : fhtml W :=
  match folders with
  | [] => htmlNil
  | _ => htmlTag "ul" (htmlList (map folderItem folders))
  end.

(** [func foldersToHTML(folders []*Folder, dest StringWriter) error] *)
Definition foldersToHTML (folders : list Folder) (dest : W) : W * option error :=
  htmlListArgs
    [htmlRawText htmlHeader;
     htmlTag "body" (folderList folders);
     htmlRawText ("</html>" ++ newline)]
    dest.

End Generator.

(** An in-memory sink that never fails: the text written so far. *)
#[export] Instance Buffer : StringWriter string :=
  fun dest text => (dest ++ text, None).

(** What an emitter writes into an empty [Buffer]. *)
Definition output (f : fhtml string) : string := fst (f EmptyString).

(** [main] after the file is decoded: [buildTree("roots", data)], then
    [writeFolders(outputName, root.Folders)] into an in-memory sink. *)
Definition convert {Q : Quoter} (data : json) : result string :=
  match buildTree "roots" data with
  | Err err => Err err
  | Ok root => Ok (output (foldersToHTML (Folders root)))
  end.

(* ================================================================= *)
(** ** Specification-side definitions *)

(** The instant the timestamp decoder is specified to return: January 1,
    1601 00:00:00 UTC plus [t] microseconds, by one exact addition over the
    unbounded integers. *)
Definition exactInstant (t : Z) : Time :=
  mkTime (sec googleEpoch + t / 1000000) (t mod 1000000 * 1000).

(** The decoder without the loop: the single multiplication
    [googleEpoch.Add(time.Duration(val * 1000))] that the loop replaces. *)
Definition naiveTimeStamp (val : Z) : Time := Add googleEpoch (wrap64 (val * 1000)).

(** The concatenation of a list of texts. *)
Definition concatAll (texts : list string) : string :=
  fold_right append EmptyString texts.

(** The rendering the specification describes, as text.  A link entry: a
    [<dt>] holding an anchor whose [href] is the escaped URL and whose text
    is the escaped name. *)
Definition linkText (lnk : Link) : string :=
  "<dt><a href=" ++ dquote ++ EscapeString (URL lnk) ++ dquote ++ ">"
  ++ EscapeString (Name (LinkNode lnk)) ++ "</a></dt>".

(** The links of a folder: nothing for no link, else one [<dl>] holding the
    entries in the order of the list. *)
Definition linksText (links : list Link) : string :=
  match links with
  | [] => EmptyString
  | _ => "<dl>" ++ concatAll (map linkText links) ++ "</dl>"
  end.

(** A folder: the [<h4>] heading with the escaped name, then the links,
    then, when there are subfolders, one [<ul>] holding each subfolder in an
    [<li>], in the order of the list. *)
Fixpoint folderText (folder : Folder) : string :=
  "<h4>" ++ EscapeString (Name (FolderNode folder)) ++ "</h4>"
  ++ linksText (Links folder)
  ++ match Folders folder with
     | [] => EmptyString
     | folders =>
         "<ul>" ++ concatAll (map (fun f => "<li>" ++ folderText f ++ "</li>") folders)
         ++ "</ul>"
     end.

Definition foldersText (folders : list Folder) : string :=
  match folders with
  | [] => EmptyString
  | _ =>
      "<ul>" ++ concatAll (map (fun f => "<li>" ++ folderText f ++ "</li>") folders)
      ++ "</ul>"
  end.

(** The same rendering as a sequence of fragments: a literal of the
    generator, or a field of the tree that is escaped on the way out. *)
Inductive fragment :=
| Literal (text : string)
| Escaped (field : string).

Definition fragmentText (fr : fragment) : string :=
  match fr with
  | Literal text => text
  | Escaped field => EscapeString field
  end.

(** The literals of the generator below the document frame. *)
Definition templateLiterals : list string :=
  ["<h4>"; "</h4>"; "<dl>"; "</dl>"; "<ul>"; "</ul>"; "<li>"; "</li>";
   "<dt><a href=" ++ dquote; dquote ++ ">"; "</a></dt>"].

Definition fromTemplate (fr : fragment) : Prop :=
  match fr with
  | Literal text => In text templateLiterals
  | Escaped _ => True
  end.

Definition linkFragments (lnk : Link) : list fragment :=
  [Literal ("<dt><a href=" ++ dquote); Escaped (URL lnk); Literal (dquote ++ ">");
   Escaped (Name (LinkNode lnk)); Literal "</a></dt>"].

Definition linksFragments (links : list Link) : list fragment :=
  match links with
  | [] => []
  | _ => ([Literal "<dl>"] ++ flat_map linkFragments links ++ [Literal "</dl>"])%list
  end.

Fixpoint folderFragments (folder : Folder) : list fragment :=
  ([Literal "<h4>"; Escaped (Name (FolderNode folder)); Literal "</h4>"]
   ++ linksFragments (Links folder)
   ++ match Folders folder with
      | [] => []
      | folders =>
          [Literal "<ul>"]
          ++ flat_map (fun f => [Literal "<li>"] ++ folderFragments f ++ [Literal "</li>"])
                      folders
          ++ [Literal "</ul>"]
      end)%list.

Definition foldersFragments (folders : list Folder) : list fragment :=
  match folders with
  | [] => []
  | _ =>
      ([Literal "<ul>"]
       ++ flat_map (fun f => [Literal "<li>"] ++ folderFragments f ++ [Literal "</li>"])
                   folders
       ++ [Literal "</ul>"])%list
  end.

(** Escaped text: none of the bytes [<], [>], the double quote and the
    apostrophe, and each [&] opens one of the five entities. *)
Definition entityTails : list string := ["amp;"; "#39;"; "lt;"; "gt;"; "#34;"].

Fixpoint wellEscaped (s : string) : bool :=
  match s with
  | EmptyString => true
  | String c s' =>
      if Ascii.eqb c "&" then
        existsb (fun tail => String.prefix tail s') entityTails && wellEscaped s'
      else if Ascii.eqb c "'" then false
      else if Ascii.eqb c "<" then false
      else if Ascii.eqb c ">" then false
      else if Ascii.eqb c "034" then false
      else wellEscaped s'
  end.

(** An emitter that writes [text] at the end of an in-memory sink and
    returns no error. *)
Definition writes (f : fhtml string) (text : string) : Prop :=
  forall dest, f dest = (dest ++ text, None).

(** The errors of the readers: every error but a path-qualified one. *)
Definition fieldError (e : error) : Prop :=
  match e with
  | ParserError _ _ => False
  | _ => True
  end.

(** The path [mapError] has built when an error raised under the last key
    has come up through all the keys before it: each step puts its key and
    a slash in front of a path that is not empty, and replaces an empty path
    by its key. *)
Fixpoint qualify (keys : list string) : string :=
  match keys with
  | [] => EmptyString
  | key :: rest =>
      let path := qualify rest in
      if nonEmpty path then key ++ "/" ++ path else key
  end.

Section Traversal.
Context {Q : Quoter}.

(** The values the builder dispatches below a mapping, with their keys: the
    elements of the [children] array of a folder under [#<index>], and every
    entry of a mapping without [type] under its own key. *)
Inductive child : json -> string -> json -> Prop :=
| child_element (node : object) (cc : list json) (i : nat) (v : json) :
    lookup "type" node = Some (JString "folder") ->
    lookup "children" node = Some (JArray cc) ->
    nth_error cc i = Some v ->
    child (JObject node) ("#" ++ Itoa (Z.of_nat i)) v
| child_entry (node : object) (k : string) (v : json) :
    lookup "type" node = None ->
    In (k, v) node ->
    child (JObject node) k v.

(** The value reached from [item] through the keys [keys], outermost first. *)
Inductive descends : json -> list string -> json -> Prop :=
| descends_here (item : json) : descends item [] item
| descends_step (item : json) (k : string) (v : json) (keys : list string)
                (target : json) :
    child item k v -> descends v keys target ->
    descends item (k :: keys) target.

(** The message of the error that a value raises by itself, whatever is
    below it: a shape the dispatcher refuses, or a field of a link or folder
    that a reader refuses.  (The messages do not depend on the key.) *)
Definition ownError (item : json) : option string :=
  match item with
  | JObject node =>
      match lookup "type" node with
      | Some t =>
          match t with
          | JString tag =>
              if String.eqb tag "folder" then
                match read EmptyString node with
                | Err err => Some (Error err)
                | Ok _ =>
                    match lookup "children" node with
                    | Some c =>
                        match c with
                        | JArray _ => None
                        | _ => Some unexpectedChildren
                        end
                    | None => None
                    end
                end
              else if String.eqb tag "url" then
                match read EmptyString node with
                | Err err => Some (Error err)
                | Ok _ =>
                    match readString "url" node with
                    | Err err => Some (Error err)
                    | Ok _ => None
                    end
                end
              else Some ("Unknown type " ++ Quote tag)
          | _ => Some "Type tag is not a string"
          end
      | None => None
      end
  | _ => Some "Unexpected node type"
  end.

(** An error that names the value that raised it: the message of that
    value, and the path of the keys down to it. *)
Definition located (key : string) (item : json) (e : error) : Prop :=
  exists keys target msg,
    descends item keys target
    /\ ownError target = Some msg
    /\ e = ParserError (qualify (key :: keys)) msg.

End Traversal.

(* ================================================================= *)
(** ** The children of a folder, one by one *)

(** What [addLink] and [addFolder] do to the receiver: the node goes to the
    end of its list. *)
Definition attach (root : Folder) (n : Link + Folder) : Folder :=
  match n with
  | inl link => mkFolder (FolderNode root) (Links root ++ [link]) (Folders root)
  | inr folder => mkFolder (FolderNode root) (Links root) (Folders root ++ [folder])
  end.

Definition linksOf (nodes : list (Link + Folder)) : list Link :=
  flat_map (fun n => match n with inl link => [link] | inr _ => [] end) nodes.

Definition foldersOf (nodes : list (Link + Folder)) : list Folder :=
  flat_map (fun n => match n with inl _ => [] | inr folder => [folder] end) nodes.

Definition nodeKey (n : Link + Folder) : string :=
  match n with
  | inl link => Key (LinkNode link)
  | inr folder => Key (FolderNode folder)
  end.

(** A mapping whose [type] field is the string [tag]. *)
Definition hasType (tag : string) (item : json) : bool :=
  match item with
  | JObject node =>
      match lookup "type" node with
      | Some (JString t) => String.eqb t tag
      | _ => false
      end
  | _ => false
  end.

Section Nodes.
Context {Q : Quoter}.

(** The dispatch of [add] with the constructed node returned, not appended. *)
Definition makeNode (key : string) (item : json) : result (Link + Folder) :=
  match item with
  | JObject node =>
      match lookup "type" node with
      | Some t =>
          match t with
          | JString tag =>
              if String.eqb tag "folder" then
                match makeChildFolder key node with
                | Ok folder => Ok (inr folder)
                | Err err => Err err
                end
              else if String.eqb tag "url" then
                match makeLink key node with
                | Ok link => Ok (inl link)
                | Err err => Err err
                end
              else Err (ParserError key ("Unknown type " ++ Quote tag))
          | _ => Err (ParserError key "Type tag is not a string")
          end
      | None =>
          match makeRootFolder key node with
          | Ok folder => Ok (inr folder)
          | Err err => Err err
          end
      end
  | _ => Err (ParserError key "Unexpected node type")
  end.

(** The nodes of the elements of a [children] array, in the order of the
    array, the first element under the key [#i]. *)
Fixpoint makeNodes (i : nat) (cc : list json) : result (list (Link + Folder)) :=
  match cc with
  | [] => Ok []
  | v :: rest =>
      match makeNode ("#" ++ Itoa (Z.of_nat i)) v with
      | Err err => Err err
      | Ok n =>
          match makeNodes (S i) rest with
          | Err err => Err err
          | Ok nodes => Ok (n :: nodes)
          end
      end
  end.

(** The text of an element of a [children] array that has a type tag: the
    entry of a link, the list item of a folder. *)
Definition itemText (item : json) : string :=
  match makeNode EmptyString item with
  | Ok (inl link) => linkText link
  | Ok (inr folder) => "<li>" ++ folderText folder ++ "</li>"
  | Err _ => EmptyString
  end.

End Nodes.

(** The node with another key. *)
Definition rekey (key : string) (n : Link + Folder) : Link + Folder :=
  match n with
  | inl link =>
      inl (mkLink (mkNode (Name (LinkNode link)) key (Added (LinkNode link))
                     (Modified (LinkNode link)))
             (URL link))
  | inr folder =>
      inr (mkFolder (mkNode (Name (FolderNode folder)) key (Added (FolderNode folder))
                       (Modified (FolderNode folder)))
             (Links folder) (Folders folder))
  end.

(** The text of a node: the entry of a link, the list item of a folder. *)
Definition nodeText (n : Link + Folder) : string :=
  match n with
  | inl link => linkText link
  | inr folder => "<li>" ++ folderText folder ++ "</li>"
  end.

(** A list of texts between the tags of a list, and nothing for no text. *)
Definition wrapTexts (tag : string) (texts : list string) : string :=
  match texts with
  | [] => EmptyString
  | _ => "<" ++ tag ++ ">" ++ concatAll texts ++ "</" ++ tag ++ ">"
  end.

(* ================================================================= *)
(** ** Example documents *)

(** The link of the minimal document of the specification. *)
Definition exampleLink : json :=
  JObject [("type", JString "url"); ("name", JString "Example");
           ("url", JString "https://example.com");
           ("date_added", JString "13000000000000000")].

(** The entries of its [bookmark_bar] mapping, which has no [type]. *)
Definition barEntries : object :=
  [("name", JString "Bookmarks Bar");
   ("date_added", JString "13000000000000000");
   ("children", JArray [exampleLink])].

(** The value of [roots] in the minimal document, as decoded. *)
Definition minimalRoots : json := JObject [("bookmark_bar", JObject barEntries)].

(** The same document with the type tag [folder] on [bookmark_bar]. *)
Definition typedRoots : json :=
  JObject [("bookmark_bar", JObject (("type", JString "folder") :: barEntries))].

(** The text of the document rendered from [typedRoots]. *)
Definition typedDocument : string :=
  htmlHeader
  ++ "<body><ul><li><h4>Bookmarks Bar</h4><dl><dt><a href=" ++ dquote
  ++ "https://example.com" ++ dquote
  ++ ">Example</a></dt></dl></li></ul></body></html>" ++ newline.

(** A folder whose third child is a string. *)
Definition brokenEntries : object :=
  [("type", JString "folder"); ("name", JString "Bookmarks Bar");
   ("date_added", JString "13000000000000000");
   ("children", JArray [exampleLink; exampleLink; JString "https://example.com"])].

(** A second link, and a folder with the children link, folder, link. *)
Definition otherLink : json :=
  JObject [("type", JString "url"); ("name", JString "Other");
           ("url", JString "https://example.org");
           ("date_added", JString "13000000000000001")].

(** A small folder element, and the two orders of a link and a folder. *)
Definition exampleFolder : json :=
  JObject [("type", JString "folder"); ("name", JString "Sub");
           ("date_added", JString "13000000000000000")].

Definition threeChildren : object :=
  [("type", JString "folder"); ("name", JString "Bar");
   ("date_added", JString "13000000000000000");
   ("children", JArray [exampleLink; exampleFolder; otherLink])].

Definition linkFirst : object :=
  [("type", JString "folder"); ("name", JString "Bar");
   ("date_added", JString "13000000000000000");
   ("children", JArray [exampleLink; exampleFolder])].

Definition folderFirst : object :=
  [("type", JString "folder"); ("name", JString "Bar");
   ("date_added", JString "13000000000000000");
   ("children", JArray [exampleFolder; exampleLink])].

(** The same with an empty mapping in the place of the folder. *)
Definition untypedSecond : object :=
  [("type", JString "folder"); ("name", JString "Bar");
   ("date_added", JString "13000000000000000");
   ("children", JArray [exampleLink; JObject []])].

Definition untypedFirst : object :=
  [("type", JString "folder"); ("name", JString "Bar");
   ("date_added", JString "13000000000000000");
   ("children", JArray [JObject []; exampleLink])].

(** The trees of the two orders. *)
Definition linkFirstTree : Folder :=
  mkFolder (mkNode "Bar" "bar" (exactInstant 13000000000000000) zeroTime)
    [mkLink (mkNode "Example" "#0" (exactInstant 13000000000000000) zeroTime)
       "https://example.com"]
    [mkFolder (mkNode "Sub" "#1" (exactInstant 13000000000000000) zeroTime) [] []].

Definition folderFirstTree : Folder :=
  mkFolder (mkNode "Bar" "bar" (exactInstant 13000000000000000) zeroTime)
    [mkLink (mkNode "Example" "#1" (exactInstant 13000000000000000) zeroTime)
       "https://example.com"]
    [mkFolder (mkNode "Sub" "#0" (exactInstant 13000000000000000) zeroTime) [] []].

(* ================================================================= *)
(** ** Instants as counts *)

(** The nanoseconds of an instant since January 1, year 1 00:00:00 UTC. *)
Definition nanos (ts : Time) : Z := sec ts * 1000000000 + nsec ts.

(** The inverse of the decoder: the microseconds of an instant since
    [googleEpoch]. *)
Definition encodeTimeStamp (ts : Time) : Z :=
  (sec ts - sec googleEpoch) * 1000000 + nsec ts / 1000.

(* ================================================================= *)
(** ** The documents the builder accepts *)

(** A field that holds the decimal text of an [int64]. *)
Definition validStamp (key : string) (data : object) : Prop :=
  exists s v, lookup key data = Some (JString s) /\ ParseInt s 64 = Some v.

(** The common fields of a link or folder: a [name] string, a [date_added]
    stamp, and a [date_modified] stamp or none. *)
Definition validHeader (data : object) : Prop :=
  (exists name, lookup "name" data = Some (JString name))
  /\ validStamp "date_added" data
  /\ (lookup "date_modified" data = None \/ validStamp "date_modified" data).

(** The values the dispatcher turns into a node: a link with its fields, a
    folder with its fields and no [children] or an array of such values, and
    a mapping without [type] whose every entry is such a value. *)
Inductive valid : json -> Prop :=
| valid_link (node : object) (url : string) :
    lookup "type" node = Some (JString "url") ->
    validHeader node ->
    lookup "url" node = Some (JString url) ->
    valid (JObject node)
| valid_leaf (node : object) :
    lookup "type" node = Some (JString "folder") ->
    validHeader node ->
    lookup "children" node = None ->
    valid (JObject node)
| valid_folder (node : object) (cc : list json) :
    lookup "type" node = Some (JString "folder") ->
    validHeader node ->
    lookup "children" node = Some (JArray cc) ->
    Forall valid cc ->
    valid (JObject node)
| valid_container (node : object) :
    lookup "type" node = None ->
    Forall (fun kv => valid (snd kv)) node ->
    valid (JObject node).

Section EntryNodes.
Context {Q : Quoter}.

(** The nodes of the entries of a mapping, each under its own key, in the
    order the mapping is ranged over. *)
Fixpoint makeEntryNodes (node : object) : result (list (Link + Folder)) :=
  match node with
  | [] => Ok []
  | (k, v) :: rest =>
      match makeNode k v with
      | Err err => Err err
      | Ok n =>
          match makeEntryNodes rest with
          | Err err => Err err
          | Ok nodes => Ok (n :: nodes)
          end
      end
  end.

End EntryNodes.

(* ================================================================= *)
(** ** Diagnostics and sinks *)

(** What [die] writes to the standard error stream before it exits with
    status 1: ["ERROR: " + err.Error() + "\n"]. *)
Definition diagnostic {Q : Quoter} (err : error) : string :=
  "ERROR: " ++ Error err ++ newline.

Section Writes.
Context {W : Type} {SW : StringWriter W}.

(** One [WriteString] per text, in order, up to the first that fails. *)
Fixpoint writeAll (texts : list string) (dest : W) : W * option error :=
  match texts with
  | [] => (dest, None)
  | text :: rest =>
      match WriteString dest text with
      | (dest', None) => writeAll rest dest'
      | (dest', Some err) => (dest', Some err)
      end
  end.

(** An emitter that does these writes and nothing else. *)
Definition performs (f : fhtml W) (texts : list string) : Prop :=
  forall dest, f dest = writeAll texts dest.

End Writes.

(** The texts the generator hands to [WriteString], in order. *)
Definition linkWrites (lnk : Link) : list string :=
  ["<dt>";
   "<a href=" ++ dquote ++ EscapeString (URL lnk) ++ dquote ++ ">"
   ++ EscapeString (Name (LinkNode lnk)) ++ "</a>";
   "</dt>"].

Definition linksWrites (links : list Link) : list string :=
  match links with
  | [] => []
  | _ => (["<dl>"] ++ flat_map linkWrites links ++ ["</dl>"])%list
  end.

Fixpoint folderWrites (folder : Folder) : list string :=
  (["<li>"; "<h4>"; EscapeString (Name (FolderNode folder)); "</h4>"]
   ++ linksWrites (Links folder)
   ++ match Folders folder with
      | [] => []
      | folders => ["<ul>"] ++ flat_map folderWrites folders ++ ["</ul>"]
      end
   ++ ["</li>"])%list.

Definition foldersWrites (folders : list Folder) : list string :=
  match folders with
  | [] => []
  | _ => (["<ul>"] ++ flat_map folderWrites folders ++ ["</ul>"])%list
  end.

Definition documentWrites (folders : list Folder) : list string :=
  ([htmlHeader; "<body>"] ++ foldersWrites folders
   ++ ["</body>"; ("</html>" ++ newline)%string])%list.

(** A sink that takes a given number of writes and fails from then on. *)
#[export] Instance Limited : StringWriter (nat * string) :=
  fun dest text =>
    match fst dest with
    | O => (dest, Some (ErrorString "write failed"))
    | S n => ((n, snd dest ++ text), None)
    end.

(** A folder with the keys and the times of all its nodes cleared. *)
Definition eraseNode (nd : Node) : Node :=
  mkNode (Name nd) EmptyString zeroTime zeroTime.

Fixpoint eraseMeta (folder : Folder) : Folder :=
  mkFolder (eraseNode (FolderNode folder))
    (map (fun lnk => mkLink (eraseNode (LinkNode lnk)) (URL lnk)) (Links folder))
    (map eraseMeta (Folders folder)).

(** The inverse of [EscapeString] on its five entities. *)
Fixpoint unescapeFive (s : string) : string :=
  match s with
  | EmptyString => EmptyString
  | String c r =>
      if negb (Ascii.eqb c "&") then String c (unescapeFive r) else
      match r with
      | String c1 (String c2 (String c3 r3)) =>
          if Ascii.eqb c1 "l" && Ascii.eqb c2 "t" && Ascii.eqb c3 ";"
          then String "<" (unescapeFive r3)
          else if Ascii.eqb c1 "g" && Ascii.eqb c2 "t" && Ascii.eqb c3 ";"
          then String ">" (unescapeFive r3)
          else
            match r3 with
            | String c4 r4 =>
                if Ascii.eqb c1 "a" && Ascii.eqb c2 "m" && Ascii.eqb c3 "p"
                   && Ascii.eqb c4 ";"
                then String "&" (unescapeFive r4)
                else if Ascii.eqb c1 "#" && Ascii.eqb c2 "3" && Ascii.eqb c3 "9"
                        && Ascii.eqb c4 ";"
                then String "'" (unescapeFive r4)
                else if Ascii.eqb c1 "#" && Ascii.eqb c2 "3" && Ascii.eqb c3 "4"
                        && Ascii.eqb c4 ";"
                then String "034" (unescapeFive r4)
                else String c (unescapeFive r)
            | EmptyString => String c (unescapeFive r)
            end
      | _ => String c (unescapeFive r)
      end
  end.

(* ================================================================= *)
(** ** Output destinations *)

(** The operating system as [withWriter] uses it, on a state [S]:
    [os.Create(name)], [file.WriteString], [file.Close()],
    [os.Remove(name)] (whose error the program drops), and for the standard
    output the [WriteString] and [Flush] of the [bufio.Writer] around
    [os.Stdout].  One file is open at a time, so a file handle is the name
    it was created under.  [fileExists] observes a state; the program does
    not call it. *)
Class OS (S : Type) := {
  Create : string -> S -> S * option error;
  FileWriteString : string -> S -> string -> S * option error;
  Close : string -> S -> S * option error;
  Remove : string -> S -> S;
  StdoutWriteString : S -> string -> S * option error;
  Flush : S -> S * option error;
  fileExists : string -> S -> bool
}.

(** [const stdout = "STDOUT"] *)
Definition stdout : string := "STDOUT".

(** [type WriterFunc func(StringWriter) error], run on the state of the
    operating system. *)
Definition WriterFunc (S : Type) : Type := StringWriter S -> S -> S * option error.

Section Destinations.
Context {S : Type} {os : OS S}.

(** [func withWriter(name string) func(WriterFunc) error].  In the branch of
    a file, the deferred function runs after [fn]: it closes the file, keeps
    the error of [fn] over the error of [Close], and removes the file when
    the error is not nil. *)
Definition withWriter (name : string) (fn : WriterFunc S) (s : S) : S * option error :=
  if String.eqb name stdout then
    match fn StdoutWriteString s with
    | (s1, Some err) => (s1, Some err)
    | (s1, None) => Flush s1
    end
  else
    match Create name s with
    | (s1, Some err) => (s1, Some err)
    | (s1, None) =>
        let '(s2, err) := fn (FileWriteString name) s1 in
        let '(s3, e) := Close name s2 in
        let err' := match e, err with
                    | Some _, None => e
                    | _, _ => err
                    end in
        match err' with
        | Some _ => (Remove name s3, err')
        | None => (s3, None)
        end
    end.

(** [func writeFolders(name string, folders []*Folder) error] *)
Definition writeFolders (name : string) (folders : list Folder) (s : S)
  : S * option error :=
  withWriter name (fun out => @foldersToHTML S out folders) s.

End Destinations.

(** A disk in memory, for examples: the files with their texts, the number
    of writes it still takes, and the text of the console. *)
Record Disk := mkDisk {
  files : list (string * string);
  room : nat;
  console : string
}.

Definition withoutFile (name : string) (fs : list (string * string))
  : list (string * string) :=
  filter (fun entry => negb (String.eqb name (fst entry))) fs.

Fixpoint appendToFile (name text : string) (fs : list (string * string))
  : list (string * string) :=
  match fs with
  | [] => []
  | (n, content) :: rest =>
      if String.eqb name n then (n, content ++ text) :: rest
      else (n, content) :: appendToFile name text rest
  end.

#[export] Instance memoryDisk : OS Disk := {|
  Create := fun name d =>
    match name with
    | EmptyString => (d, Some (ErrorString "open : no such file or directory"))
    | _ => (mkDisk ((name, EmptyString) :: withoutFile name (files d))
              (room d) (console d), None)
    end;
  FileWriteString := fun name d text =>
    match room d with
    | O => (d, Some (ErrorString "no space left on device"))
    | Datatypes.S n => (mkDisk (appendToFile name text (files d)) n (console d), None)
    end;
  Close := fun _ d => (d, None);
  Remove := fun name d => mkDisk (withoutFile name (files d)) (room d) (console d);
  StdoutWriteString := fun d text =>
    (mkDisk (files d) (room d) (console d ++ text), None);
  Flush := fun d => (d, None);
  fileExists := fun name d => existsb (fun entry => String.eqb name (fst entry)) (files d)
|}.

(* ================================================================= *)
(** ** Nesting of the writes *)

(** The anchor of a link, written as one text. *)
Definition anchorText (url name : string) : string :=
  "<a href=" ++ dquote ++ EscapeString url ++ dquote ++ ">"
  ++ EscapeString name ++ "</a>".

(** A write that is no tag: escaped text, or the anchor of a link. *)
Definition leafWrite (text : string) : Prop :=
  wellEscaped text = true \/ exists url name, text = anchorText url name.

(** A sequence of writes in which every opening tag is closed by its closing
    tag, in order, around a sequence of the same kind. *)
Inductive nested : list string -> Prop :=
| nested_nil : nested []
| nested_leaf (text : string) (rest : list string) :
    leafWrite text -> nested rest -> nested (text :: rest)
| nested_tag (tag : string) (inner rest : list string) :
    nested inner -> nested rest ->
    nested (("<" ++ tag ++ ">") :: (inner ++ ("</" ++ tag ++ ">")%string :: rest)%list).

(* ================================================================= *)
(** * Properties *)

(* ================================================================= *)
(** ** The timestamp decoder *)

(** The two powers of two of [int64], as numerals for [lia]. *)
Ltac int64_bounds :=
  change (2 ^ 63) with 9223372036854775808 in *;
  change (2 ^ 64) with 18446744073709551616 in *.

Lemma wrap64_small (z : Z) : - 2 ^ 63 <= z < 2 ^ 63 -> wrap64 z = z.
Proof.
  intros H. unfold wrap64. int64_bounds.
  rewrite Z.mod_small by lia. lia.
Qed.

Lemma Add_seconds (ts : Time) (k : Z) :
  0 <= k -> 0 <= sec ts -> sec ts + k < 2 ^ 63 -> 0 <= nsec ts < 1000000000 ->
  Add ts (k * 1000000000) = mkTime (sec ts + k) (nsec ts).
Proof.
  intros Hk Hs Hb Hn. unfold Add.
  rewrite Z.quot_mul, Z.rem_mul by lia.
  rewrite Z.add_0_r, (wrap64_small (sec ts + k)) by (int64_bounds; lia).
  destruct (Z.leb_spec 1000000000 (nsec ts)); [lia|].
  destruct (Z.ltb_spec (nsec ts) 0); [lia|].
  reflexivity.
Qed.

Lemma Add_micros (ts : Time) (v : Z) :
  0 <= v -> 0 <= sec ts -> sec ts + v / 1000000 < 2 ^ 63 -> nsec ts = 0 ->
  Add ts (v * 1000) = mkTime (sec ts + v / 1000000) (v mod 1000000 * 1000).
Proof.
  intros Hv Hs Hb Hn. unfold Add.
  rewrite Z.quot_div_nonneg, Z.rem_mod_nonneg by lia.
  assert (Hq : v * 1000 / 1000000000 = v / 1000000).
  { replace 1000000000 with (1000 * 1000000) by reflexivity.
    rewrite (Z.mul_comm v 1000), Z.div_mul_cancel_l by lia. reflexivity. }
  assert (Hr : (v * 1000) mod 1000000000 = v mod 1000000 * 1000).
  { replace 1000000000 with (1000000 * 1000) by reflexivity.
    rewrite Z.mul_mod_distr_r by lia. reflexivity. }
  assert (0 <= v / 1000000) by (apply Z.div_pos; lia).
  rewrite Hq, Hr, Hn, !Z.add_0_l.
  rewrite (wrap64_small (sec ts + v / 1000000)) by (int64_bounds; lia).
  pose proof (Z.mod_pos_bound v 1000000 eq_refl).
  destruct (Z.leb_spec 1000000000 (v mod 1000000 * 1000)); [lia|].
  destruct (Z.ltb_spec (v mod 1000000 * 1000) 0); [lia|].
  reflexivity.
Qed.

(** The loop leaves the remainder of [val] by [twoCenturies] and has added
    the quotient times 6307200000 seconds, as long as the seconds fit. *)
Lemma chunks_spec (val : Z) (ts : Time) :
  0 <= val < 2 ^ 63 ->
  0 <= sec ts ->
  sec ts + val / twoCenturies * 6307200000 < 2 ^ 63 ->
  0 <= nsec ts < 1000000000 ->
  chunks val ts
  = (val mod twoCenturies,
     mkTime (sec ts + val / twoCenturies * 6307200000) (nsec ts)).
Proof.
  revert ts.
  assert (Hpos : 0 <= val \/ val < 0) by lia.
  destruct Hpos as [Hpos|]; [|intros; lia].
  pattern val. apply (Zlt_0_ind); [|exact Hpos].
  clear val Hpos. intros val IH Hval ts Hrange Hs Hb Hn.
  int64_bounds. simp chunks.
  destruct (Z_le_dec twoCenturies val) as [Hge|Hlt]; cbn;
    rewrite twoCenturies_value in *.
  - assert (Hd : val / 6307200000000000
                 = (val - 6307200000000000) / 6307200000000000 + 1).
    { replace val with (val - 6307200000000000 + 1 * 6307200000000000) at 1 by ring.
      rewrite Z.div_add by lia. reflexivity. }
    assert (Hm : val mod 6307200000000000
                 = (val - 6307200000000000) mod 6307200000000000).
    { replace val with (val - 6307200000000000 + 1 * 6307200000000000) at 1 by ring.
      rewrite Z.mod_add by lia. reflexivity. }
    assert (0 <= (val - 6307200000000000) / 6307200000000000)
      by (apply Z.div_pos; lia).
    rewrite wrap64_small by lia.
    change 6307200000000000000 with (6307200000 * 1000000000).
    rewrite Add_seconds by lia.
    rewrite IH; cbn [sec nsec]; try lia.
    rewrite Hd, Hm. f_equal. f_equal. ring.
  - rewrite Z.mod_small, Z.div_small by lia.
    destruct ts; cbn. f_equal. f_equal. lia.
Qed.

Lemma micros_split (t : Z) :
  t / 1000000 = t / 6307200000000000 * 6307200000 + t mod 6307200000000000 / 1000000
  /\ t mod 1000000 = (t mod 6307200000000000) mod 1000000.
Proof.
  pose proof (Z.div_mod t 6307200000000000) as Hdm.
  remember (t / 6307200000000000) as q eqn:Hq.
  remember (t mod 6307200000000000) as r eqn:Hr.
  assert (Ht : t = r + q * 6307200000 * 1000000) by lia.
  split.
  - rewrite Ht at 1. rewrite Z.div_add by lia. lia.
  - rewrite Ht at 1. rewrite Z.mod_add by lia. reflexivity.
Qed.

Lemma decodeTimeStamp_exactInstant (t : Z) :
  0 <= t < 2 ^ 63 -> decodeTimeStamp t = exactInstant t.
Proof.
  intros Ht. unfold decodeTimeStamp, exactInstant. int64_bounds.
  assert (Hq : 0 <= t / twoCenturies < 1463).
  { rewrite twoCenturies_value. split.
    - apply Z.div_pos; lia.
    - apply Z.div_lt_upper_bound; lia. }
  rewrite chunks_spec; cbn [sec nsec googleEpoch]; int64_bounds; try lia.
  pose proof (Z.mod_pos_bound t twoCenturies eq_refl) as Hm.
  rewrite twoCenturies_value in *.
  rewrite wrap64_small by (int64_bounds; lia).
  assert (Hd : 0 <= t mod 6307200000000000 / 1000000 < 6307200000).
  { split; [apply Z.div_pos; lia | apply Z.div_lt_upper_bound; lia]. }
  rewrite Add_micros; cbn [sec nsec]; int64_bounds; try lia.
  destruct (micros_split t) as [Hdiv Hmod].
  rewrite Hdiv, Hmod. f_equal. lia.
Qed.

Section TimestampDecoder.
Context {Q : Quoter}.

(** C2.  For every non-negative 64-bit count [t] of microseconds, the loop of
    [readTimeStamp] followed by the addition of the remainder yields exactly
    January 1, 1601 00:00:00 UTC plus [t] microseconds: the instant of the
    exact addition over unbounded integers.  No addition wraps around (the
    model wraps every [int64] operation, and the result is the unwrapped
    one), also where [t * 1000] exceeds [int64], from 9223372036854776
    microseconds (about 292 years) on, where the single multiplication wraps.
    [readTimeStamp] returns that instant for every field that [readInt]
    reads as [t]. *)
Theorem readTimeStamp_exact (t : Z) :
  0 <= t < 2 ^ 63 ->
  decodeTimeStamp t = exactInstant t
  /\ 0 <= nsec (decodeTimeStamp t) < 1000000000
  /\ (forall key data, readInt key data 64 = Ok t ->
        readTimeStamp key data = Ok (exactInstant t))
  /\ (9223372036854776 <= t -> wrap64 (t * 1000) <> t * 1000).
Proof.
  intros Ht. pose proof (decodeTimeStamp_exactInstant t Ht) as He.
  split; [exact He|]. split.
  - rewrite He. unfold exactInstant; cbn [nsec].
    pose proof (Z.mod_pos_bound t 1000000 eq_refl). lia.
  - split.
    + intros key data Hr. unfold readTimeStamp. rewrite Hr, He. reflexivity.
    + intros Hbig. unfold wrap64.
      pose proof (Z.mod_pos_bound (t * 1000 + 2 ^ 63) (2 ^ 64) eq_refl).
      int64_bounds. lia.
Qed.

End TimestampDecoder.

(** The largest [int64], 1462 chunks and a remainder, decodes to the exact
    instant; the single multiplication does not. *)
Lemma readTimeStamp_exact_witness :
  0 <= 9223372036854775807 < 2 ^ 63
  /\ decodeTimeStamp 9223372036854775807 = exactInstant 9223372036854775807
  /\ naiveTimeStamp 9223372036854775807 <> exactInstant 9223372036854775807.
Proof.
  split; [lia|]. split.
  - apply (@readTimeStamp_exact asciiQuote 9223372036854775807). lia.
  - vm_compute. discriminate.
Defined.

(* ================================================================= *)
(** ** The scalar readers *)

Lemma parseDigits_nonneg (s : string) :
  forall acc un, 0 <= acc -> parseDigits s acc = Some un -> 0 <= un.
Proof.
  induction s as [|c s IH]; cbn; intros acc un Hacc H.
  - injection H as <-. exact Hacc.
  - destruct (isDigit c) eqn:Hd; [|discriminate].
    refine (IH _ _ _ H).
    unfold isDigit in Hd. apply andb_prop in Hd. lia.
Qed.

(** A parsed value fits a signed integer of the requested width. *)
Lemma ParseInt_range (s : string) (bitSize val : Z) :
  ParseInt s bitSize = Some val ->
  let bits := if bitSize =? 0 then 64 else bitSize in
  0 < bits <= 64 /\ - 2 ^ (bits - 1) <= val < 2 ^ (bits - 1).
Proof.
  unfold ParseInt. cbv zeta.
  set (bits := if bitSize =? 0 then 64 else bitSize). intros H.
  destruct ((bits <? 0) || (64 <? bits)) eqn:Hb; [discriminate|].
  apply orb_false_elim in Hb. destruct Hb as [Hb1 Hb2].
  assert (Hbits : 0 < bits <= 64).
  { subst bits. destruct (Z.eqb_spec bitSize 0); lia. }
  split; [exact Hbits|].
  assert (Hpow : 0 < 2 ^ (bits - 1)) by (apply Z.pow_pos_nonneg; lia).
  destruct s as [|c s']; [discriminate|].
  destruct (if (c =? "+")%char || (c =? "-")%char then s' else String c s')
    as [|d ds] eqn:Hdigits; [discriminate|].
  destruct (parseDigits (String d ds) 0) as [un|] eqn:Hp; [|discriminate].
  pose proof (parseDigits_nonneg _ _ _ (Z.le_refl 0) Hp) as Hun.
  destruct ((c =? "-")%char); cbn [negb andb] in H.
  - destruct (Z.ltb_spec (2 ^ (bits - 1)) un); [discriminate|].
    injection H as <-. lia.
  - destruct (Z.leb_spec (2 ^ (bits - 1)) un); [discriminate|].
    injection H as <-. lia.
Qed.

(** The model of [strconv.ParseInt] reads back what [strconv.Itoa] prints. *)
Lemma parseDigits_acc (d : Decimal.uint) :
  forall acc : positive,
    parseDigits (NilEmpty.string_of_uint d) (Z.pos acc)
    = Some (Z.pos (Pos.of_uint_acc d acc)).
Proof.
  induction d; intros acc; cbn [NilEmpty.string_of_uint parseDigits Pos.of_uint_acc];
    [reflexivity | ..];
    match goal with
    | |- context [isDigit ?c] => change (isDigit c) with true; cbv iota
    end;
    match goal with
    | |- parseDigits _ (?a * 10 + ?k) = Some (Z.pos (Pos.of_uint_acc _ ?q)) =>
        let k' := eval vm_compute in k in
        replace (a * 10 + k) with (Z.pos q) by (change k with k'; lia)
    end; apply IHd.
Qed.

Lemma parseDigits_uint (d : Decimal.uint) :
  parseDigits (NilEmpty.string_of_uint d) 0 = Some (Z.of_N (Pos.of_uint d)).
Proof.
  induction d; cbn [NilEmpty.string_of_uint parseDigits Pos.of_uint];
    [reflexivity | exact IHd | ..];
    match goal with
    | |- context [isDigit ?c] => change (isDigit c) with true; cbv iota
    end;
    match goal with
    | |- parseDigits _ ?z = Some (Z.of_N (N.pos (Pos.of_uint_acc _ ?q))) =>
        let z' := eval vm_compute in z in change z with z'
    end; apply parseDigits_acc.
Qed.

Lemma ParseInt_Itoa (v : Z) :
  - 2 ^ 63 <= v < 2 ^ 63 -> ParseInt (Itoa v) 64 = Some v.
Proof.
  intros Hv. int64_bounds. unfold Itoa.
  destruct v as [|p|p]; [reflexivity | |];
    cbn [Z.to_int NilZero.string_of_int];
    pose proof (DecimalPos.Unsigned.of_to p) as Hof;
    pose proof (parseDigits_uint (Pos.to_uint p)) as Hp; rewrite Hof in Hp;
    unfold NilZero.string_of_uint;
    (destruct (Pos.to_uint p) as [ |d|d|d|d|d|d|d|d|d|d] eqn:Hd;
     [now destruct (DecimalPos.Unsigned.to_uint_nonnil p) | ..]);
    unfold ParseInt; cbn [NilEmpty.string_of_uint] in *;
    cbn [Z.eqb Z.ltb Z.compare Pos.compare Pos.compare_cont orb Ascii.eqb
         Bool.eqb andb negb];
    rewrite Hp; change (2 ^ (64 - 1)) with 9223372036854775808;
    cbn [Z.of_N andb negb].
  1-10: destruct (Z.leb_spec 9223372036854775808 (Z.pos p)); [lia | reflexivity].
  all: destruct (Z.ltb_spec 9223372036854775808 (Z.pos p)); [lia | reflexivity].
Qed.

Section ScalarReaders.
Context {Q : Quoter}.

(** C9.  [readString] fails with the key-not-found error when the key is
    absent and with the error [Tag %q is not a string] when the value is
    present and no string, and returns the string otherwise.  [readInt]
    returns [readString]'s error unchanged; otherwise it parses the string in
    base 10: a parsed value is returned and fits a signed integer of the
    given bit width, and a parse failure gives the error
    [Value for tag %q is not an integer: %q], which carries the string.  A
    field that holds the decimal text of a 64-bit integer reads as that
    integer. *)
Theorem scalar_readers (key : string) (data : object) (bitSize : Z) :
  (lookup key data = None -> readString key data = Err (KeyNotFoundError key))
  /\ (forall v, lookup key data = Some v -> (forall s, v <> JString s) ->
        readString key data
        = Err (ErrorString ("Tag " ++ Quote key ++ " is not a string")))
  /\ (forall s, lookup key data = Some (JString s) -> readString key data = Ok s)
  /\ (forall e, readString key data = Err e -> readInt key data bitSize = Err e)
  /\ (forall s, readString key data = Ok s ->
        match ParseInt s bitSize with
        | Some val =>
            readInt key data bitSize = Ok val
            /\ let bits := if bitSize =? 0 then 64 else bitSize in
               - 2 ^ (bits - 1) <= val < 2 ^ (bits - 1)
        | None =>
            readInt key data bitSize
            = Err (ErrorString ("Value for tag " ++ Quote key
                                  ++ " is not an integer: " ++ Quote s))
        end)
  /\ (forall v, - 2 ^ 63 <= v < 2 ^ 63 ->
        lookup key data = Some (JString (Itoa v)) ->
        readInt key data 64 = Ok v).
Proof.
  unfold readInt, readString. repeat split.
  - intros ->. reflexivity.
  - intros v -> Hv. destruct v; try reflexivity. now destruct (Hv s).
  - intros s ->. reflexivity.
  - intros e He. rewrite He. reflexivity.
  - intros s Hs. rewrite Hs.
    destruct (ParseInt s bitSize) as [val|] eqn:Hp; [|reflexivity].
    split; [reflexivity|]. apply (ParseInt_range _ _ _ Hp).
  - intros v Hv ->. now rewrite ParseInt_Itoa.
Qed.

End ScalarReaders.

(** A field holding the text [12x] is no integer; a field holding a number
    is no string. *)
Lemma scalar_readers_witness :
  let data := [("date_added", JString "12x"); ("name", JNull)] in
  @readString asciiQuote "date_added" data = Ok "12x"
  /\ @readInt asciiQuote "date_added" data 64
     = Err (ErrorString ("Value for tag " ++ asciiQuote "date_added"
                           ++ " is not an integer: " ++ asciiQuote "12x"))
  /\ @readInt asciiQuote "name" data 64
     = Err (ErrorString ("Tag " ++ asciiQuote "name" ++ " is not a string"))
  /\ @readInt asciiQuote "url" data 64 = Err (KeyNotFoundError "url").
Proof.
  cbv zeta.
  split; [reflexivity|]. split; [|split].
  - exact (proj1 (proj2 (proj2 (proj2 (proj2
      (@scalar_readers asciiQuote "date_added"
         [("date_added", JString "12x"); ("name", JNull)] 64))))) "12x" eq_refl).
  - apply (proj1 (proj2 (proj2 (proj2
      (@scalar_readers asciiQuote "name"
         [("date_added", JString "12x"); ("name", JNull)] 64))))).
    apply (proj1 (proj2
      (@scalar_readers asciiQuote "name"
         [("date_added", JString "12x"); ("name", JNull)] 64)) JNull eq_refl).
    intros s; discriminate.
  - apply (proj1 (proj2 (proj2 (proj2
      (@scalar_readers asciiQuote "url"
         [("date_added", JString "12x"); ("name", JNull)] 64))))).
    apply (proj1
      (@scalar_readers asciiQuote "url"
         [("date_added", JString "12x"); ("name", JNull)] 64)).
    reflexivity.
Defined.

(* ================================================================= *)
(** ** The tree builder: the three functions as [bm.go] has them *)

Section BuilderEquations.
Context {Q : Quoter}.

(** The scan for [children] is the index expression [node["children"]]
    followed by the type assertion. *)
Lemma scanChildren_lookup dispatch (key : string) (data : object) (folder : Folder) :
  scanChildren dispatch key data folder
  = match lookup "children" data with
    | Some c =>
        match c with
        | JArray cc => rangeChildren dispatch key 0 cc folder
        | _ => Err (ParserError key unexpectedChildren)
        end
    | None => Ok folder
    end.
Proof.
  induction data as [|[k c] rest IH]; [reflexivity|].
  cbn [scanChildren lookup].
  destruct (String.eqb "children" k); [reflexivity | exact IH].
Qed.

(** The body of [func (root *Folder) add(key string, item interface{}) error]. *)
Lemma add_eq (root : Folder) (key : string) (item : json) :
  add root key item
  = match item with
    | JObject node =>
        match lookup "type" node with
        | Some t =>
            match t with
            | JString tag =>
                if String.eqb tag "folder" then addFolder root (makeChildFolder key node)
                else if String.eqb tag "url" then addLink root (makeLink key node)
                else Err (ParserError key ("Unknown type " ++ Quote tag))
            | _ => Err (ParserError key "Type tag is not a string")
            end
        | None => addFolder root (makeRootFolder key node)
        end
    | _ => Err (ParserError key "Unexpected node type")
    end.
Proof.
  destruct item; try reflexivity.
  cbn [add dispatchBody]. unfold makeChildFolder, makeRootFolder.
  destruct (lookup "type" entries) as [t|]; [|reflexivity].
  destruct t; try reflexivity.
  destruct (String.eqb s "folder"); [|reflexivity].
  destruct (read key entries); [|reflexivity].
  rewrite scanChildren_lookup. reflexivity.
Qed.


End BuilderEquations.


(* ================================================================= *)
(** ** Strings and paths *)

Lemma append_nil_r (s : string) : s ++ EmptyString = s.
Proof. induction s as [|c s IH]; cbn; [reflexivity | now rewrite IH]. Qed.

Lemma append_assoc (a b c : string) : (a ++ b) ++ c = a ++ b ++ c.
Proof. induction a as [|x a IH]; cbn; [reflexivity | now rewrite IH]. Qed.

Lemma nonEmpty_false (s : string) : nonEmpty s = false -> s = EmptyString.
Proof. destruct s; [reflexivity | discriminate]. Qed.

Lemma HasSuffix_trans (a b c : string) : HasSuffix a b -> HasSuffix b c -> HasSuffix a c.
Proof.
  intros [p ->] [q ->]. exists (p ++ q). now rewrite append_assoc.
Qed.

Section NodeFields.
Context {Q : Quoter}.

(** Each step upward keeps the path below as a suffix and the message. *)
Lemma mapError_suffix (key path msg : string) :
  exists path', mapError key (ParserError path msg) = ParserError path' msg
                /\ HasSuffix path' path.
Proof.
  cbn. destruct (nonEmpty path) eqn:Hp.
  - exists (key ++ "/" ++ path). split; [reflexivity|].
    exists (key ++ "/"). now rewrite append_assoc.
  - exists key. split; [reflexivity|].
    apply nonEmpty_false in Hp. subst path. exists key. now rewrite append_nil_r.
Qed.

(** A key-not-found error of a reader names an absent key. *)
Lemma readTimeStamp_not_found (key key' : string) (data : object) :
  readTimeStamp key data = Err (KeyNotFoundError key') -> lookup key data = None.
Proof.
  unfold readTimeStamp, readInt, readString.
  destruct (lookup key data) as [v|]; [|reflexivity].
  destruct v; try discriminate.
  destruct (ParseInt s 64); discriminate.
Qed.

(** C4.  The common fields of a link or typed-folder mapping, read by
    [Node.read] for [makeLink] and [makeChildFolder].  (1) With [name] and
    [date_added] well-formed and [date_modified] absent, the read succeeds
    and the modified time stays the zero time (absent); a link with a [url]
    string is built.  (2) With [date_modified] present and malformed, the
    read fails, whatever the other fields are, and with [name] and
    [date_added] well-formed the error is that of [date_modified].  (3) With
    [date_added] absent the read fails, and with [name] well-formed the
    error is the key-not-found error for [date_added]; [makeLink] and
    [makeChildFolder] turn it into a path-qualified error whose path is the
    key of the node, and every step upward keeps that key as the end of the
    path. *)
Theorem read_dates (key : string) (data : object) :
  (forall name added,
     readString "name" data = Ok name ->
     readTimeStamp "date_added" data = Ok added ->
     lookup "date_modified" data = None ->
     read key data = Ok (mkNode name key added zeroTime)
     /\ (forall url, readString "url" data = Ok url ->
           makeLink key data = Ok (mkLink (mkNode name key added zeroTime) url)))
  /\ (forall v e,
        lookup "date_modified" data = Some v ->
        readTimeStamp "date_modified" data = Err e ->
        (exists e', read key data = Err e')
        /\ (forall name added,
              readString "name" data = Ok name ->
              readTimeStamp "date_added" data = Ok added ->
              read key data = Err e
              /\ makeLink key data = Err (mapError key e)
              /\ makeChildFolder key data = Err (mapError key e)))
  /\ (lookup "date_added" data = None ->
        (exists e', read key data = Err e')
        /\ (forall name,
              readString "name" data = Ok name ->
              let msg := "Tag " ++ Quote "date_added" ++ " is not found" in
              read key data = Err (KeyNotFoundError "date_added")
              /\ makeLink key data = Err (ParserError key msg)
              /\ makeChildFolder key data = Err (ParserError key msg)
              /\ (forall parent, exists path,
                    mapError parent (ParserError key msg) = ParserError path msg
                    /\ HasSuffix path key))).
Proof.
  split; [|split].
  - intros name added Hname Hadded Hmod.
    assert (Hread : read key data = Ok (mkNode name key added zeroTime)).
    { unfold read. rewrite Hname, Hadded.
      unfold readTimeStamp, readInt, readString. rewrite Hmod. reflexivity. }
    split; [exact Hread|].
    intros url Hurl. unfold makeLink. rewrite Hread, Hurl. reflexivity.
  - intros v e Hv He.
    assert (Hkind : forall k, e <> KeyNotFoundError k).
    { intros k ->. apply readTimeStamp_not_found in He. congruence. }
    split.
    + unfold read. destruct (readString "name" data); [|eauto].
      destruct (readTimeStamp "date_added" data); [|eauto].
      rewrite He. destruct e; eauto. now destruct (Hkind key0).
    + intros name added Hname Hadded.
      assert (Hread : read key data = Err e).
      { unfold read. rewrite Hname, Hadded, He.
        destruct e; try reflexivity. now destruct (Hkind key0). }
      unfold makeLink, makeChildFolder. rewrite Hread. auto.
  - intros Hadded.
    assert (Hts : readTimeStamp "date_added" data = Err (KeyNotFoundError "date_added")).
    { unfold readTimeStamp, readInt, readString. rewrite Hadded. reflexivity. }
    split.
    + unfold read. destruct (readString "name" data); [|eauto].
      rewrite Hts. eauto.
    + intros name Hname msg.
      assert (Hread : read key data = Err (KeyNotFoundError "date_added")).
      { unfold read. rewrite Hname, Hts. reflexivity. }
      unfold makeLink, makeChildFolder. rewrite Hread.
      split; [reflexivity|]. split; [reflexivity|]. split; [reflexivity|].
      intros parent. apply mapError_suffix.
Qed.

End NodeFields.

(** A link without [date_modified] is built; the same link without
    [date_added] fails at its key. *)
Lemma read_dates_witness :
  let link := [("type", JString "url"); ("name", JString "Example");
               ("url", JString "https://example.com");
               ("date_added", JString "13000000000000000")] in
  let broken := [("type", JString "url"); ("name", JString "Example");
                 ("url", JString "https://example.com")] in
  @read asciiQuote "#0" link
  = Ok (mkNode "Example" "#0" (exactInstant 13000000000000000) zeroTime)
  /\ @makeLink asciiQuote "#0" broken
     = Err (ParserError "#0" ("Tag " ++ asciiQuote "date_added" ++ " is not found")).
Proof.
  cbv zeta. split.
  - apply (proj1 (@read_dates asciiQuote "#0"
                    [("type", JString "url"); ("name", JString "Example");
                     ("url", JString "https://example.com");
                     ("date_added", JString "13000000000000000")])
             "Example" (exactInstant 13000000000000000)); reflexivity.
  - apply (proj2 (proj2 (proj2 (@read_dates asciiQuote "#0"
                           [("type", JString "url"); ("name", JString "Example");
                            ("url", JString "https://example.com")]))
                    eq_refl) "Example" eq_refl).
Defined.

(* ================================================================= *)
(** ** The HTML generator on an in-memory sink *)

(** Induction on a folder, with the property for each subfolder. *)
Lemma Folder_nested_ind (P : Folder -> Prop) :
  (forall node links folders, Forall P folders -> P (mkFolder node links folders)) ->
  forall folder, P folder.
Proof.
  intros step. fix IH 1. intros [node links folders].
  apply step. induction folders as [|f fs IHfs]; constructor.
  - apply IH.
  - exact IHfs.
Qed.

Lemma concatAll_app (xs ys : list string) :
  concatAll (xs ++ ys)%list = concatAll xs ++ concatAll ys.
Proof.
  unfold concatAll.
  induction xs as [|x xs IH]; cbn; [reflexivity|].
  now rewrite IH, append_assoc.
Qed.

Lemma writes_nil : writes htmlNil EmptyString.
Proof. intros dest. unfold htmlNil. now rewrite append_nil_r. Qed.

Lemma writes_raw (text : string) : writes (htmlRawText text) text.
Proof. intros dest. reflexivity. Qed.

Lemma writes_list (fns : list (fhtml string)) (texts : list string) :
  Forall2 writes fns texts -> writes (htmlList fns) (concatAll texts).
Proof.
  induction 1 as [|f text fns texts Hf _ IH]; intros dest; cbn.
  - now rewrite append_nil_r.
  - rewrite Hf, IH, append_assoc. reflexivity.
Qed.

(** Texts compared up to the association of [++]. *)
Ltac string_norm :=
  repeat progress (rewrite ?append_assoc, ?append_nil_r; cbn [append]).

(** One goal per emitter of a literal list of emitters. *)
Ltac each_emitter := repeat first [apply Forall2_nil | apply Forall2_cons].

Lemma writes_tag (tag : string) (fn : fhtml string) (text : string) :
  writes fn text ->
  writes (htmlTag tag fn) ("<" ++ tag ++ ">" ++ text ++ "</" ++ tag ++ ">").
Proof.
  intros Hfn dest. unfold htmlTag, htmlListArgs.
  rewrite (writes_list _ [("<" ++ tag ++ ">"); text; ("</" ++ tag ++ ">")]).
  - cbn [concatAll fold_right]. rewrite !append_assoc, append_nil_r.
    cbn. reflexivity.
  - each_emitter; [apply writes_raw | exact Hfn | apply writes_raw].
Qed.

Lemma writes_output (f : fhtml string) (text : string) :
  writes f text -> output f = text.
Proof. intros H. unfold output. now rewrite H. Qed.

Lemma writes_folderName (folder : Folder) :
  writes (folderName folder)
         ("<h4>" ++ EscapeString (Name (FolderNode folder)) ++ "</h4>").
Proof. apply (writes_tag "h4"). apply writes_raw. Qed.

Lemma writes_link (lnk : Link) :
  writes (htmlTag "dt" (htmlLink (URL lnk) (Name (LinkNode lnk)))) (linkText lnk).
Proof.
  intros dest. unfold htmlLink. rewrite (writes_tag "dt" _ _ (writes_raw _)).
  unfold linkText, dquote. string_norm. reflexivity.
Qed.

Lemma writes_folderLinks (folder : Folder) :
  writes (folderLinks folder) (linksText (Links folder)).
Proof.
  unfold folderLinks, linksText.
  destruct (Links folder) as [|l ls]; [apply writes_nil|].
  apply (writes_tag "dl"). apply writes_list.
  generalize (l :: ls). intros links.
  induction links; constructor; [apply writes_link | assumption].
Qed.

Lemma writes_folderItem (folder : Folder) :
  writes (folderItem folder) ("<li>" ++ folderText folder ++ "</li>").
Proof.
  induction folder as [node links folders IH] using Folder_nested_ind.
  cbn [folderItem folderText]. apply (writes_tag "li").
  unfold htmlListArgs.
  intros dest.
  rewrite (writes_list _
             [("<h4>" ++ EscapeString (Name node) ++ "</h4>"); linksText links;
              match folders with
              | [] => EmptyString
              | _ => "<ul>" ++ concatAll (map (fun f => "<li>" ++ folderText f ++ "</li>")
                                               folders) ++ "</ul>"
              end]).
  - cbn [concatAll fold_right Folders Links FolderNode].
    rewrite !append_assoc, append_nil_r. destruct folders; reflexivity.
  - each_emitter;
      [apply (writes_folderName (mkFolder node links folders))
      |apply (writes_folderLinks (mkFolder node links folders))|].
    cbn [Folders]. destruct folders as [|f fs]; [apply writes_nil|].
    apply (writes_tag "ul"). apply writes_list.
    revert IH. generalize (f :: fs). intros l Hl.
    induction Hl; constructor; assumption.
Qed.

Lemma writes_folderList (folders : list Folder) :
  writes (folderList folders) (foldersText folders).
Proof.
  unfold folderList, foldersText.
  destruct folders as [|f fs]; [apply writes_nil|].
  apply (writes_tag "ul"). apply writes_list.
  generalize (f :: fs). intros l.
  induction l; constructor; [apply writes_folderItem | assumption].
Qed.

(** The equation of [folderList] in [bm.go]: each folder of the slice gives
    [htmlTag("li", htmlListArgs(folderName(folder), folderLinks(folder), folderList(folder.Folders)))]. *)
Lemma folderItem_eq {W : Type} {SW : StringWriter W} (folder : Folder) :
  folderItem folder
  = htmlTag "li"
      (htmlListArgs
         [folderName folder; folderLinks folder; folderList (Folders folder)]).
Proof. destruct folder as [node links [|f fs]]; reflexivity. Qed.

Lemma writes_folder (folder : Folder) :
  writes (htmlListArgs
            [folderName folder; folderLinks folder; folderList (Folders folder)])
         ("<h4>" ++ EscapeString (Name (FolderNode folder)) ++ "</h4>"
          ++ linksText (Links folder) ++ foldersText (Folders folder)).
Proof.
  intros dest. unfold htmlListArgs.
  rewrite (writes_list _
             [("<h4>" ++ EscapeString (Name (FolderNode folder)) ++ "</h4>");
              linksText (Links folder); foldersText (Folders folder)]).
  - cbn [concatAll fold_right]. rewrite !append_assoc, append_nil_r. reflexivity.
  - each_emitter;
      [apply writes_folderName | apply writes_folderLinks | apply writes_folderList].
Qed.

Lemma folderText_eq (folder : Folder) :
  folderText folder
  = "<h4>" ++ EscapeString (Name (FolderNode folder)) ++ "</h4>"
    ++ linksText (Links folder) ++ foldersText (Folders folder).
Proof. destruct folder as [node links [|f fs]]; reflexivity. Qed.

(** C7.  The rendering of a folder, which [folderList] wraps in an [<li>]:
    the [<h4>] heading with the escaped name; then, only when the folder has
    a link, one [<dl>] with one [<dt>] anchor per link; then, only when the
    folder has a subfolder, one [<ul>] with each subfolder in an [<li>],
    rendered by the same rule.  A folder with no link and no subfolder gives
    the heading alone; an empty list of links or of subfolders gives no text
    at all. *)
Theorem folder_rendering (folder : Folder) :
  let body :=
    htmlListArgs [folderName folder; folderLinks folder; folderList (Folders folder)] in
  let heading := "<h4>" ++ EscapeString (Name (FolderNode folder)) ++ "</h4>" in
  folderItem folder = htmlTag "li" body
  /\ output body = heading ++ output (folderLinks folder)
                     ++ output (folderList (Folders folder))
  /\ output body = folderText folder
  /\ match Links folder with
     | [] => output (folderLinks folder) = EmptyString
     | links =>
         output (folderLinks folder)
         = "<dl>" ++ concatAll (map linkText links) ++ "</dl>"
     end
  /\ match Folders folder with
     | [] => output (folderList (Folders folder)) = EmptyString
     | folders =>
         output (folderList (Folders folder))
         = "<ul>"
           ++ concatAll (map (fun f => "<li>" ++ folderText f ++ "</li>") folders)
           ++ "</ul>"
     end
  /\ match Links folder, Folders folder with
     | [], [] => output body = heading
     | _, _ => True
     end.
Proof.
  cbv zeta.
  pose proof (writes_output _ _ (writes_folder folder)) as Hbody.
  pose proof (writes_output _ _ (writes_folderLinks folder)) as Hlinks.
  pose proof (writes_output _ _ (writes_folderList (Folders folder))) as Hlist.
  split; [apply folderItem_eq|].
  split; [rewrite Hbody, Hlinks, Hlist; string_norm; reflexivity|].
  split; [now rewrite Hbody, folderText_eq|].
  split; [rewrite Hlinks; destruct (Links folder); reflexivity|].
  split; [rewrite Hlist; destruct (Folders folder); reflexivity|].
  rewrite Hbody.
  destruct (Links folder); [|exact I].
  destruct (Folders folder); [|exact I].
  cbn [linksText foldersText]. string_norm. reflexivity.
Qed.

(* ================================================================= *)
(** ** Escaping *)

Lemma EscapeString_app (a b : string) :
  EscapeString (a ++ b) = EscapeString a ++ EscapeString b.
Proof.
  induction a as [|c a IH]; cbn; [reflexivity|].
  now rewrite IH, append_assoc.
Qed.

Lemma prefix_nil (s : string) : String.prefix EmptyString s = true.
Proof. destruct s; reflexivity. Qed.

Lemma wellEscaped_EscapeString (s : string) : wellEscaped (EscapeString s) = true.
Proof.
  induction s as [|c s IH]; [reflexivity|].
  cbn [EscapeString]. unfold escapeByte.
  destruct (Ascii.eqb c "&") eqn:Eamp; [cbn; rewrite prefix_nil; exact IH|].
  destruct (Ascii.eqb c "'") eqn:Eapo; [cbn; rewrite prefix_nil; exact IH|].
  destruct (Ascii.eqb c "<") eqn:Elt; [cbn; rewrite prefix_nil; exact IH|].
  destruct (Ascii.eqb c ">") eqn:Egt; [cbn; rewrite prefix_nil; exact IH|].
  destruct (Ascii.eqb c "034") eqn:Equo; [cbn; rewrite prefix_nil; exact IH|].
  cbn [append wellEscaped]. rewrite Eamp, Eapo, Elt, Egt, Equo. exact IH.
Qed.

(** Well-escaped text holds none of the four bytes that are never raw. *)
Lemma wellEscaped_no_raw (s : string) (c : ascii) :
  wellEscaped s = true ->
  In c ["<"; ">"; "034"; "'"]%char -> containsByte c s = false.
Proof.
  intros Hs Hc. induction s as [|d s IH]; [reflexivity|].
  cbn [wellEscaped containsByte] in *.
  assert (Hrest : wellEscaped s = true /\ Ascii.eqb c d = false).
  { destruct (Ascii.eqb d "&") eqn:Eamp.
    - apply andb_prop in Hs. split; [tauto|].
      apply Ascii.eqb_eq in Eamp. subst d.
      cbn in Hc. destruct Hc as [<-|[<-|[<-|[<-|[]]]]]; reflexivity.
    - destruct (Ascii.eqb d "'") eqn:Eapo; [discriminate|].
      destruct (Ascii.eqb d "<") eqn:Elt; [discriminate|].
      destruct (Ascii.eqb d ">") eqn:Egt; [discriminate|].
      destruct (Ascii.eqb d "034") eqn:Equo; [discriminate|].
      split; [exact Hs|].
      cbn in Hc. destruct Hc as [<-|[<-|[<-|[<-|[]]]]];
        rewrite Ascii.eqb_sym; assumption. }
  destruct Hrest as [Hs' ->]. cbn. apply IH. exact Hs'.
Qed.

Lemma fragments_linksText (links : list Link) :
  concatAll (map fragmentText (linksFragments links)) = linksText links.
Proof.
  unfold linksFragments, linksText.
  destruct links as [|l ls]; [reflexivity|].
  generalize (l :: ls). intros links.
  rewrite map_app, concatAll_app. cbn [map concatAll fold_right fragmentText].
  string_norm. do 4 f_equal.
  rewrite map_app, concatAll_app. cbn [map concatAll fold_right fragmentText].
  string_norm. f_equal.
  induction links as [|x xs IH]; [reflexivity|].
  cbn [flat_map map]. rewrite map_app, concatAll_app, IH.
  unfold linkFragments, linkText, dquote.
  cbn [map concatAll fold_right fragmentText]. string_norm. reflexivity.
Qed.

Lemma fragments_items (folders : list Folder) :
  Forall (fun f => concatAll (map fragmentText (folderFragments f)) = folderText f)
         folders ->
  concatAll
    (map fragmentText
       (flat_map (fun f => [Literal "<li>"] ++ folderFragments f ++ [Literal "</li>"])%list
                 folders))
  = concatAll (map (fun f => "<li>" ++ folderText f ++ "</li>") folders).
Proof.
  induction 1 as [|f fs Hf _ IH]; [reflexivity|].
  cbn [flat_map map]. rewrite !map_app, !concatAll_app, IH, Hf.
  cbn [map concatAll fold_right fragmentText]. string_norm. reflexivity.
Qed.

Lemma folderFragments_eq (folder : Folder) :
  folderFragments folder
  = ([Literal "<h4>"; Escaped (Name (FolderNode folder)); Literal "</h4>"]
     ++ linksFragments (Links folder) ++ foldersFragments (Folders folder))%list.
Proof. destruct folder as [node links [|f fs]]; reflexivity. Qed.

Lemma fragments_subfolders (folders : list Folder) :
  Forall (fun f => concatAll (map fragmentText (folderFragments f)) = folderText f)
         folders ->
  concatAll (map fragmentText (foldersFragments folders)) = foldersText folders.
Proof.
  intros H. unfold foldersFragments, foldersText.
  destruct folders as [|f fs]; [reflexivity|].
  revert H. generalize (f :: fs). intros l H.
  rewrite !map_app, !concatAll_app, (fragments_items l H).
  cbn [map concatAll fold_right fragmentText]. string_norm. reflexivity.
Qed.

Lemma fragments_folderText (folder : Folder) :
  concatAll (map fragmentText (folderFragments folder)) = folderText folder.
Proof.
  induction folder as [node links folders IH] using Folder_nested_ind.
  rewrite folderFragments_eq, folderText_eq.
  rewrite !map_app, !concatAll_app, fragments_linksText.
  cbn [Folders]. rewrite (fragments_subfolders folders IH).
  cbn [map concatAll fold_right fragmentText]. string_norm. reflexivity.
Qed.

Lemma fragments_foldersText (folders : list Folder) :
  concatAll (map fragmentText (foldersFragments folders)) = foldersText folders.
Proof.
  apply fragments_subfolders, Forall_forall. intros x _. apply fragments_folderText.
Qed.

Lemma fromTemplate_links (links : list Link) :
  Forall fromTemplate (linksFragments links).
Proof.
  unfold linksFragments. destruct links as [|l ls]; [constructor|].
  generalize (l :: ls). intros links.
  apply Forall_app. split; [repeat constructor; cbn; tauto|].
  apply Forall_app. split; [|repeat constructor; cbn; tauto].
  induction links as [|x xs IH]; [constructor|].
  cbn [flat_map]. apply Forall_app. split; [|exact IH].
  unfold linkFragments. repeat constructor; cbn; tauto.
Qed.

Lemma fromTemplate_items (folders : list Folder) :
  Forall (fun f => Forall fromTemplate (folderFragments f)) folders ->
  Forall fromTemplate
    (flat_map (fun f => [Literal "<li>"] ++ folderFragments f ++ [Literal "</li>"])%list
              folders).
Proof.
  induction 1 as [|f fs Hf _ IH]; [constructor|].
  cbn [flat_map]. apply Forall_app. split; [|exact IH].
  apply Forall_app. split; [repeat constructor; cbn; tauto|].
  apply Forall_app. split; [exact Hf | repeat constructor; cbn; tauto].
Qed.

Lemma fromTemplate_subfolders (folders : list Folder) :
  Forall (fun f => Forall fromTemplate (folderFragments f)) folders ->
  Forall fromTemplate (foldersFragments folders).
Proof.
  intros H. unfold foldersFragments. destruct folders as [|f fs]; [constructor|].
  revert H. generalize (f :: fs). intros l H.
  apply Forall_app. split; [repeat constructor; cbn; tauto|].
  apply Forall_app. split; [|repeat constructor; cbn; tauto].
  apply fromTemplate_items, H.
Qed.

Lemma fromTemplate_folder (folder : Folder) :
  Forall fromTemplate (folderFragments folder).
Proof.
  induction folder as [node links folders IH] using Folder_nested_ind.
  rewrite folderFragments_eq.
  apply Forall_app. split; [repeat constructor; cbn; tauto|].
  apply Forall_app. split; [apply fromTemplate_links|].
  apply fromTemplate_subfolders, IH.
Qed.

Lemma fromTemplate_folders (folders : list Folder) :
  Forall fromTemplate (foldersFragments folders).
Proof.
  apply fromTemplate_subfolders, Forall_forall. intros x _.
  apply fromTemplate_folder.
Qed.

(** The whole document. *)
Lemma writes_foldersToHTML (folders : list Folder) :
  writes (foldersToHTML folders)
         (htmlHeader ++ "<body>" ++ foldersText folders ++ "</body>"
          ++ "</html>" ++ newline).
Proof.
  intros dest. unfold foldersToHTML, htmlListArgs.
  rewrite (writes_list _
             [htmlHeader; "<body>" ++ foldersText folders ++ "</body>";
              "</html>" ++ newline]).
  - cbn [concatAll fold_right]. string_norm. reflexivity.
  - each_emitter; [apply writes_raw | | apply writes_raw].
    apply (writes_tag "body"). apply writes_folderList.
Qed.

(** C5.  [html.EscapeString] replaces each of the five bytes [&], [<], [>],
    the double quote and the apostrophe by its entity, byte by byte, and
    keeps every other byte; its result never holds a raw [<], [>], double
    quote or apostrophe, and holds [&] only as the first byte of one of the
    five entities.  Every name and URL of the tree reaches the output through
    it: the text [folderList] writes is a sequence of fragments, each one a
    literal of the generator or the escaped text of a field, and the whole
    document adds only the literal frame around it. *)
Theorem escaping (folders : list Folder) :
  (forall s, wellEscaped (EscapeString s) = true)
  /\ (forall s c, In c ["<"; ">"; "034"; "'"]%char ->
        containsByte c (EscapeString s) = false)
  /\ (forall a b, EscapeString (a ++ b) = EscapeString a ++ EscapeString b)
  /\ (EscapeString "&" = "&amp;" /\ EscapeString "<" = "&lt;"
      /\ EscapeString ">" = "&gt;" /\ EscapeString dquote = "&#34;"
      /\ EscapeString "'" = "&#39;")
  /\ (forall c, In c ["&"; "<"; ">"; "034"; "'"]%char
                \/ EscapeString (String c EmptyString) = String c EmptyString)
  /\ (forall text, output (htmlText text) = EscapeString text)
  /\ (forall link text,
        output (htmlLink link text)
        = "<a href=" ++ dquote ++ EscapeString link ++ dquote ++ ">"
          ++ EscapeString text ++ "</a>")
  /\ output (folderList folders)
     = concatAll (map fragmentText (foldersFragments folders))
  /\ Forall fromTemplate (foldersFragments folders)
  /\ output (foldersToHTML folders)
     = htmlHeader ++ "<body>"
       ++ concatAll (map fragmentText (foldersFragments folders))
       ++ "</body>" ++ "</html>" ++ newline.
Proof.
  split; [apply wellEscaped_EscapeString|].
  split; [intros s c Hc; apply wellEscaped_no_raw;
          [apply wellEscaped_EscapeString | exact Hc]|].
  split; [apply EscapeString_app|].
  split; [repeat split|].
  split.
  { intros c. cbn [EscapeString]. unfold escapeByte.
    destruct (Ascii.eqb_spec c "&"); [subst; cbn; tauto|].
    destruct (Ascii.eqb_spec c "'"); [subst; cbn; tauto|].
    destruct (Ascii.eqb_spec c "<"); [subst; cbn; tauto|].
    destruct (Ascii.eqb_spec c ">"); [subst; cbn; tauto|].
    destruct (Ascii.eqb_spec c "034"); [subst; cbn; tauto|].
    right. reflexivity. }
  split; [intros text; apply writes_output, writes_raw|].
  split; [intros link text; apply writes_output, writes_raw|].
  split; [rewrite fragments_foldersText; apply writes_output, writes_folderList|].
  split; [apply fromTemplate_folders|].
  rewrite fragments_foldersText. apply writes_output, writes_foldersToHTML.
Qed.

(** A folder named [<b>Tom & Jerry's</b>]: no raw [<] in what is written
    for the name. *)
Lemma escaping_witness :
  let name := "<b>Tom & Jerry's</b>" in
  In "<"%char ["<"; ">"; "034"; "'"]%char
  /\ containsByte "<" (EscapeString name) = false
  /\ EscapeString name = "&lt;b&gt;Tom &amp; Jerry&#39;s&lt;/b&gt;".
Proof.
  cbv zeta. split; [now left|]. split; [|reflexivity].
  apply (proj1 (proj2 (escaping [])) "<b>Tom & Jerry's</b>" "<"%char).
  now left.
Defined.

(* ================================================================= *)
(** ** Error paths *)

(** Induction on a decoded value, with the property for each element of an
    array and each value of a mapping. *)
Lemma json_nested_ind (P : json -> Prop) :
  P JNull ->
  (forall b, P (JBool b)) ->
  (forall f, P (JNumber f)) ->
  (forall s, P (JString s)) ->
  (forall elems, Forall P elems -> P (JArray elems)) ->
  (forall entries, Forall (fun kv => P (snd kv)) entries -> P (JObject entries)) ->
  forall item, P item.
Proof.
  intros Hnull Hbool Hnum Hstr Harr Hobj. fix IH 1. intros [ | b | f | s | elems | entries].
  - exact Hnull.
  - apply Hbool.
  - apply Hnum.
  - apply Hstr.
  - apply Harr. induction elems as [|v vs IHvs]; constructor; [apply IH | exact IHvs].
  - apply Hobj. induction entries as [|[k v] rest IHrest]; constructor;
      [apply IH | exact IHrest].
Qed.

Lemma lookup_In (key : string) (data : object) (v : json) :
  lookup key data = Some v -> In (key, v) data.
Proof.
  induction data as [|[k w] rest IH]; cbn; [discriminate|].
  destruct (String.eqb_spec key k) as [->|_].
  - intros [= ->]. now left.
  - intros H. right. exact (IH H).
Qed.

Lemma qualify_last (keys : list string) :
  keys <> [] -> last keys EmptyString <> EmptyString ->
  qualify keys = Join keys "/" /\ nonEmpty (qualify keys) = true.
Proof.
  induction keys as [|k rest IH]; [congruence|]. intros _ Hlast.
  destruct rest as [|k' rest'].
  - cbn in *. destruct k; [congruence | split; reflexivity].
  - destruct IH as [IHq IHn]; [discriminate | exact Hlast |].
    change (qualify (k :: k' :: rest'))
      with (if nonEmpty (qualify (k' :: rest'))
            then k ++ "/" ++ qualify (k' :: rest') else k).
    rewrite IHn, IHq. split; [reflexivity|].
    destruct k; reflexivity.
Qed.

Section ErrorPaths.
Context {Q : Quoter}.

Lemma mapError_field (key : string) (e : error) :
  fieldError e -> mapError key e = ParserError key (Error e).
Proof. destruct e; cbn; [reflexivity | reflexivity | tauto]. Qed.

Lemma mapError_qualify (key : string) (keys : list string) (msg : string) :
  mapError key (ParserError (qualify keys) msg) = ParserError (qualify (key :: keys)) msg.
Proof. cbn. destruct (nonEmpty (qualify keys)); reflexivity. Qed.

Lemma readString_fieldError (key : string) (data : object) (e : error) :
  readString key data = Err e -> fieldError e.
Proof.
  unfold readString. destruct (lookup key data) as [v|].
  - destruct v; intros [= <-]; exact I.
  - intros [= <-]. exact I.
Qed.

Lemma readTimeStamp_fieldError (key : string) (data : object) (e : error) :
  readTimeStamp key data = Err e -> fieldError e.
Proof.
  unfold readTimeStamp, readInt.
  destruct (readString key data) as [s|e'] eqn:Hs.
  - destruct (ParseInt s 64); [discriminate|]. intros [= <-]. exact I.
  - intros [= <-]. exact (readString_fieldError _ _ _ Hs).
Qed.

Lemma read_fieldError (key : string) (data : object) (e : error) :
  read key data = Err e -> fieldError e /\ forall key', read key' data = Err e.
Proof.
  unfold read.
  destruct (readString "name" data) as [name|e1] eqn:Hname.
  - destruct (readTimeStamp "date_added" data) as [added|e2] eqn:Hadded.
    + destruct (readTimeStamp "date_modified" data) as [modified|e3] eqn:Hmod;
        [discriminate|].
      pose proof (readTimeStamp_fieldError _ _ _ Hmod) as Hf.
      destruct e3; try discriminate; intros [= <-]; split;
        try exact Hf; reflexivity.
    + intros [= <-]. split; [|reflexivity].
      exact (readTimeStamp_fieldError _ _ _ Hadded).
  - intros [= <-]. split; [|reflexivity].
    exact (readString_fieldError _ _ _ Hname).
Qed.

Lemma read_ok_key (key key' : string) (data : object) (nd : Node) :
  read key data = Ok nd ->
  read key' data = Ok (mkNode (Name nd) key' (Added nd) (Modified nd)).
Proof.
  unfold read.
  destruct (readString "name" data); [|discriminate].
  destruct (readTimeStamp "date_added" data); [|discriminate].
  destruct (readTimeStamp "date_modified" data) as [m|e].
  - intros [= <-]. reflexivity.
  - destruct e; try discriminate. intros [= <-]. reflexivity.
Qed.

(** A failing loop over [children] fails at one element, and the error of
    that element comes up through [mapError]. *)
Lemma rangeChildren_err dispatch (key : string) (cc : list json) :
  forall (i : nat) (folder : Folder) (e : error),
    rangeChildren dispatch key i cc folder = Err e ->
    exists j v folder' e',
      nth_error cc j = Some v
      /\ dispatch folder' ("#" ++ Itoa (Z.of_nat (i + j))) v = Err e'
      /\ e = mapError key e'.
Proof.
  induction cc as [|v rest IH]; intros i folder e; cbn [rangeChildren];
    [discriminate|].
  destruct (dispatch folder ("#" ++ Itoa (Z.of_nat i)) v) as [folder'|e'] eqn:Hd.
  - intros H. destruct (IH _ _ _ H) as (j & w & f' & e'' & Hj & Hw & He).
    exists (S j), w, f', e''. split; [exact Hj|]. split; [|exact He].
    now rewrite <- plus_n_Sm.
  - intros [= <-]. exists 0%nat, v, folder, e'. split; [reflexivity|].
    split; [|reflexivity]. now rewrite <- plus_n_O.
Qed.

Lemma rangeEntries_err dispatch (key : string) (node : object) :
  forall (folder : Folder) (e : error),
    rangeEntries dispatch key node folder = Err e ->
    exists k v folder' e',
      In (k, v) node /\ dispatch folder' k v = Err e' /\ e = mapError key e'.
Proof.
  induction node as [|[k v] rest IH]; intros folder e; cbn [rangeEntries];
    [discriminate|].
  destruct (dispatch folder k v) as [folder'|e'] eqn:Hd.
  - intros H. destruct (IH _ _ H) as (k' & w & f' & e'' & Hin & Hw & He).
    exists k', w, f', e''. split; [now right|]. split; assumption.
  - intros [= <-]. exists k, v, folder, e'. split; [now left|].
    split; [exact Hd | reflexivity].
Qed.

Lemma addFolder_err (root : Folder) (r : result Folder) (e : error) :
  addFolder root r = Err e -> r = Err e.
Proof. destruct r; cbn; [discriminate | congruence]. Qed.

Lemma addLink_err (root : Folder) (r : result Link) (e : error) :
  addLink root r = Err e -> r = Err e.
Proof. destruct r; cbn; [discriminate | congruence]. Qed.

Lemma located_here (key : string) (item : json) (msg : string) :
  ownError item = Some msg -> located key item (ParserError key msg).
Proof.
  intros H. exists [], item, msg. split; [constructor|]. split; [exact H|].
  reflexivity.
Qed.

Lemma located_below (key k : string) (item v : json) (e : error) :
  child item k v -> located k v e -> located key item (mapError key e).
Proof.
  intros Hc (keys & target & msg & Hd & Hown & ->).
  exists (k :: keys), target, msg.
  split; [econstructor; eassumption|]. split; [exact Hown|].
  apply mapError_qualify.
Qed.

Lemma add_located (item : json) :
  forall root key e, add root key item = Err e -> located key item e.
Proof.
  enough (H : (forall root key e, add root key item = Err e -> located key item e)
              /\ (forall cc, item = JArray cc ->
                    Forall (fun v => forall root key e,
                              add root key v = Err e -> located key v e) cc))
    by exact (proj1 H).
  induction item as [ | b | f | s | elems IH | entries IH] using json_nested_ind;
    (split; [|try discriminate]).
  1-5: intros root key e; rewrite add_eq; intros [= <-];
       apply located_here; reflexivity.
  - intros cc [= <-]. revert IH. apply Forall_impl. intros v Hv. exact (proj1 Hv).
  - intros root key e. rewrite add_eq.
    destruct (lookup "type" entries) as [t|] eqn:Htype.
    + destruct t as [ | b | f | tag | l | m];
        try (intros [= <-]; apply located_here; cbn; rewrite Htype; reflexivity).
      destruct (String.eqb_spec tag "folder") as [->|Hnf].
      * intros H. apply addFolder_err in H. unfold makeChildFolder in H.
        destruct (read key entries) as [nd|err] eqn:Hread.
        -- destruct (lookup "children" entries) as [c|] eqn:Hc; [|discriminate].
           assert (Hread0 := read_ok_key _ EmptyString _ _ Hread).
           destruct c as [ | b | f | s | cc | m];
             try (injection H as <-; apply located_here; cbn;
                  rewrite Htype, Hread0, Hc; reflexivity).
           apply rangeChildren_err in H.
           destruct H as (j & v & folder' & e' & Hj & Hv & ->).
           apply (located_below key ("#" ++ Itoa (Z.of_nat (0 + j))) _ v).
           ++ apply (child_element entries cc j v); assumption.
           ++ apply lookup_In in Hc.
              rewrite Forall_forall in IH. specialize (IH _ Hc). cbn in IH.
              destruct IH as [_ IHcc]. specialize (IHcc cc eq_refl).
              rewrite Forall_forall in IHcc.
              apply (IHcc v (nth_error_In _ _ Hj) folder' _ _ Hv).
        -- injection H as <-. destruct (read_fieldError _ _ _ Hread) as [Hf Hk].
           rewrite (mapError_field _ _ Hf). apply located_here. cbn.
           rewrite Htype, (Hk EmptyString). reflexivity.
      * apply String.eqb_neq in Hnf.
        destruct (String.eqb_spec tag "url") as [->|Hnu].
        -- intros H. apply addLink_err in H. unfold makeLink in H.
           destruct (read key entries) as [nd|err] eqn:Hread.
           ++ assert (Hread0 := read_ok_key _ EmptyString _ _ Hread).
              destruct (readString "url" entries) as [url|err] eqn:Hurl;
                [discriminate|].
              injection H as <-.
              rewrite (mapError_field _ _ (readString_fieldError _ _ _ Hurl)).
              apply located_here. cbn. rewrite Htype, Hread0, Hurl. reflexivity.
           ++ injection H as <-. destruct (read_fieldError _ _ _ Hread) as [Hf Hk].
              rewrite (mapError_field _ _ Hf). apply located_here. cbn.
              rewrite Htype, (Hk EmptyString). reflexivity.
        -- apply String.eqb_neq in Hnu. intros [= <-]. apply located_here. cbn.
           rewrite Htype, Hnf, Hnu. reflexivity.
    + intros H. apply addFolder_err in H. unfold makeRootFolder in H.
      apply rangeEntries_err in H.
      destruct H as (k & v & folder' & e' & Hin & Hv & ->).
      apply (located_below key k _ v).
      * apply child_entry; assumption.
      * rewrite Forall_forall in IH. specialize (IH _ Hin). cbn in IH.
        exact (proj1 IH folder' _ _ Hv).
Qed.

End ErrorPaths.

Section ErrorPathClaims.
Context {Q : Quoter}.

(** C3, as the code has it.  Every error of the dispatcher [add], hence
    every error raised at a node below the root, is a path-qualified error:
    its message is the one raised by the failing value, reached from the
    dispatched value through a sequence of keys, and its path is built from
    the dispatched key and those keys, outermost first, by [mapError]'s rule
    ([qualify]): at each step upward the key and a slash are put in front of
    a path that is not empty, and an empty path is replaced by the key.  When
    the key of the failing value is not empty, that path is the keys joined
    by slashes.  The same holds below [makeRootFolder].  In a folder whose
    header reads and whose first two children are accepted, a third child
    (index 2) that is no mapping fails with [Unexpected node type] on the
    path of the folder followed by [/#2]. *)
Theorem error_paths :
  (forall root key item e,
     add root key item = Err e ->
     exists keys target msg,
       descends item keys target
       /\ ownError target = Some msg
       /\ e = ParserError (qualify (key :: keys)) msg
       /\ (last (key :: keys) EmptyString <> EmptyString ->
           qualify (key :: keys) = Join (key :: keys) "/"))
  /\ (forall key node e,
        makeRootFolder key node = Err e ->
        exists k v keys target msg,
          In (k, v) node
          /\ descends v keys target
          /\ ownError target = Some msg
          /\ e = ParserError (qualify (key :: k :: keys)) msg
          /\ (last (k :: keys) EmptyString <> EmptyString ->
              qualify (key :: k :: keys) = Join (key :: k :: keys) "/"))
  /\ (forall key path msg,
        mapError key (ParserError path msg)
        = ParserError (if nonEmpty path then key ++ "/" ++ path else key) msg)
  /\ (forall key node nd a b v rest f1 f2,
        read key node = Ok nd ->
        lookup "children" node = Some (JArray (a :: b :: v :: rest)) ->
        (forall m, v <> JObject m) ->
        add (mkFolder nd [] []) "#0" a = Ok f1 ->
        add f1 "#1" b = Ok f2 ->
        makeChildFolder key node
        = Err (ParserError (key ++ "/#2") "Unexpected node type")
        /\ HasSuffix (key ++ "/#2") "#2"
        /\ forall parent, exists path,
             mapError parent (ParserError (key ++ "/#2") "Unexpected node type")
             = ParserError path "Unexpected node type"
             /\ HasSuffix path "#2").
Proof.
  split; [|split; [|split]].
  - intros root key item e H.
    destruct (add_located item root key e H) as (keys & target & msg & Hd & Ho & He).
    exists keys, target, msg. repeat (split; [assumption|]).
    intros Hlast. apply qualify_last; [discriminate | exact Hlast].
  - intros key node e H. unfold makeRootFolder in H.
    apply rangeEntries_err in H.
    destruct H as (k & v & folder' & e' & Hin & Hv & ->).
    destruct (add_located v folder' k e' Hv) as (keys & target & msg & Hd & Ho & ->).
    exists k, v, keys, target, msg. repeat (split; [assumption|]).
    split; [apply mapError_qualify|].
    intros Hlast. apply qualify_last; [discriminate | exact Hlast].
  - intros key path msg. cbn. destruct (nonEmpty path); reflexivity.
  - intros key node nd a b v rest f1 f2 Hread Hc Hv Ha Hb.
    assert (Hsuffix : HasSuffix (key ++ "/#2") "#2").
    { exists (key ++ "/"). now rewrite append_assoc. }
    split; [|split; [exact Hsuffix|]].
    + unfold makeChildFolder. rewrite Hread, Hc. cbn [rangeChildren].
      change ("#" ++ Itoa (Z.of_nat 0)) with "#0".
      change ("#" ++ Itoa (Z.of_nat 1)) with "#1".
      change ("#" ++ Itoa (Z.of_nat 2)) with "#2".
      rewrite Ha, Hb, add_eq.
      destruct v; try reflexivity. now destruct (Hv entries).
    + intros parent.
      destruct (mapError_suffix parent (key ++ "/#2") "Unexpected node type")
        as (path & Hp & Hs).
      exists path. split; [exact Hp|]. exact (HasSuffix_trans _ _ _ Hs Hsuffix).
Qed.

End ErrorPathClaims.

(** The folder of [brokenEntries] fails at its third child. *)
Lemma error_paths_witness :
  @makeChildFolder asciiQuote "bookmark_bar" brokenEntries
  = Err (ParserError "bookmark_bar/#2" "Unexpected node type")
  /\ @buildTree asciiQuote "roots" (JObject [("bookmark_bar", JObject brokenEntries)])
     = Err (ParserError (Join ["roots"; "bookmark_bar"; "#2"] "/") "Unexpected node type").
Proof.
  split.
  - pose (nd := mkNode "Bookmarks Bar" "bookmark_bar"
                  (exactInstant 13000000000000000) zeroTime).
    pose (l0 := mkLink (mkNode "Example" "#0" (exactInstant 13000000000000000)
                          zeroTime) "https://example.com").
    pose (l1 := mkLink (mkNode "Example" "#1" (exactInstant 13000000000000000)
                          zeroTime) "https://example.com").
    apply (proj1 (proj2 (proj2 (proj2 (@error_paths asciiQuote))) "bookmark_bar"
                    brokenEntries nd exampleLink exampleLink
                    (JString "https://example.com") []
                    (mkFolder nd [l0] []) (mkFolder nd [l0; l1] [])
                    eq_refl eq_refl ltac:(intros m; discriminate) eq_refl eq_refl)).
  - reflexivity.
Defined.

(** C3 as the claim states it fails where a key is empty: in the document
    whose [roots] mapping is [{"": true}] the failing value has the key
    sequence [roots], then the empty key, which joined by slashes is
    [roots/]; the reported path is [roots]. *)
Lemma error_paths_counterexample :
  @add asciiQuote (newRootFolder "roots") EmptyString (JBool true)
  = Err (ParserError EmptyString "Unexpected node type")
  /\ @buildTree asciiQuote "roots" (JObject [(EmptyString, JBool true)])
     = Err (ParserError "roots" "Unexpected node type")
  /\ Join ["roots"; EmptyString] "/" = "roots/"
  /\ ParserError "roots" "Unexpected node type"
     <> ParserError (Join ["roots"; EmptyString] "/") "Unexpected node type".
Proof.
  split; [reflexivity|]. split; [reflexivity|]. split; [reflexivity|].
  discriminate.
Qed.

(* ================================================================= *)
(** ** The minimal document *)

Lemma lookup_absent (key : string) (data : object) :
  (forall v, ~ In (key, v) data) -> lookup key data = None.
Proof.
  induction data as [|[k v] rest IH]; intros H; [reflexivity|].
  cbn. destruct (String.eqb_spec key k) as [->|_].
  - destruct (H v). now left.
  - apply IH. intros w Hw. apply (H w). now right.
Qed.

Section MinimalDocument.
Context {Q : Quoter}.

(** A mapping without [type] hands each of its entries to the dispatcher:
    it fails at the first entry visited when that entry is no mapping. *)
Lemma makeRootFolder_scalar_entry (key k : string) (v : json) (rest : object) :
  (forall m, v <> JObject m) ->
  makeRootFolder key ((k, v) :: rest)
  = Err (mapError key (ParserError k "Unexpected node type")).
Proof.
  intros Hv. unfold makeRootFolder. cbn [rangeEntries]. rewrite add_eq.
  destruct v; try reflexivity. now destruct (Hv entries).
Qed.

(** C1, as the code has it.  With the type tag [folder] on [bookmark_bar],
    the minimal document is parsed into a root holding one folder, named
    [Bookmarks Bar], with one link and no subfolder, and is rendered as the
    header, then inside [<body>] the list of root folders with one item:
    [<h4>Bookmarks Bar</h4>], a [<dl>] with the one [<dt>] anchor of the
    link, and no nested [<ul>].  Without the tag, as the document is written,
    [bookmark_bar] is a folder named by its key whose every entry is
    dispatched as a node: in whatever order the entries are visited, the
    first one ([name], [date_added] or [children]) is no mapping and the
    parse fails with [Unexpected node type]. *)
Theorem minimal_document :
  buildTree "roots" typedRoots
  = Ok (mkFolder (mkNode "roots" "roots" zeroTime zeroTime) []
          [mkFolder
             (mkNode "Bookmarks Bar" "bookmark_bar"
                (exactInstant 13000000000000000) zeroTime)
             [mkLink (mkNode "Example" "#0" (exactInstant 13000000000000000) zeroTime)
                "https://example.com"]
             []])
  /\ convert typedRoots = Ok typedDocument
  /\ (forall order,
        Permutation order barEntries ->
        exists k,
          In k ["name"; "date_added"; "children"]
          /\ convert (JObject [("bookmark_bar", JObject order)])
             = Err (ParserError ("roots/bookmark_bar/" ++ k) "Unexpected node type")).
Proof.
  split; [vm_compute; reflexivity|]. split; [vm_compute; reflexivity|].
  intros order Hperm.
  assert (Hin : forall kv, In kv order -> In kv barEntries).
  { intros kv. apply Permutation_in. exact Hperm. }
  assert (Htype : lookup "type" order = None).
  { apply lookup_absent. intros v Hv. apply Hin in Hv. cbn in Hv.
    destruct Hv as [H|[H|[H|[]]]]; discriminate. }
  destruct order as [|[k v] rest].
  { apply Permutation_length in Hperm. discriminate. }
  assert (Hkv : In (k, v) barEntries) by (apply Hin; now left).
  assert (Hfail : forall k', k' <> EmptyString -> (forall m, v <> JObject m) ->
            convert (JObject [("bookmark_bar", JObject ((k', v) :: rest))])
            = Err (ParserError ("roots/bookmark_bar/" ++ k') "Unexpected node type")
            \/ lookup "type" ((k', v) :: rest) <> None).
  { intros k' Hk' Hv.
    destruct (lookup "type" ((k', v) :: rest)) eqn:Ht; [right; discriminate|left].
    unfold convert, buildTree, makeRootFolder. cbn [rangeEntries].
    rewrite add_eq, Ht, (makeRootFolder_scalar_entry _ _ _ _ Hv).
    destruct k'; [congruence | reflexivity]. }
  cbn in Hkv. destruct Hkv as [H|[H|[H|[]]]]; injection H as <- <-.
  - exists "name". split; [cbn; tauto|].
    destruct (Hfail "name") as [H|H]; [discriminate | intros m; discriminate
                                      | exact H | now destruct H].
  - exists "date_added". split; [cbn; tauto|].
    destruct (Hfail "date_added") as [H|H]; [discriminate | intros m; discriminate
                                            | exact H | now destruct H].
  - exists "children". split; [cbn; tauto|].
    destruct (Hfail "children") as [H|H]; [discriminate | intros m; discriminate
                                          | exact H | now destruct H].
Qed.

End MinimalDocument.

(** The entries of [bookmark_bar] visited last to first. *)
Lemma minimal_document_witness :
  Permutation (rev barEntries) barEntries
  /\ exists k,
       In k ["name"; "date_added"; "children"]
       /\ @convert asciiQuote (JObject [("bookmark_bar", JObject (rev barEntries))])
          = Err (ParserError ("roots/bookmark_bar/" ++ k) "Unexpected node type").
Proof.
  split.
  - apply Permutation_sym, Permutation_rev.
  - apply (proj2 (proj2 (@minimal_document asciiQuote))).
    apply Permutation_sym, Permutation_rev.
Defined.

(** C1 as the claim states it fails: the minimal document, whose
    [bookmark_bar] has no [type], is not parsed. *)
Lemma minimal_document_counterexample :
  @buildTree asciiQuote "roots" minimalRoots
  = Err (ParserError "roots/bookmark_bar/name" "Unexpected node type")
  /\ @convert asciiQuote minimalRoots
     = Err (ParserError "roots/bookmark_bar/name" "Unexpected node type").
Proof. split; reflexivity. Qed.

(* ================================================================= *)
(** ** The order of the children *)

Lemma attach_all_Links (nodes : list (Link + Folder)) :
  forall folder,
    Links (fold_left attach nodes folder) = (Links folder ++ linksOf nodes)%list
    /\ Folders (fold_left attach nodes folder) = (Folders folder ++ foldersOf nodes)%list
    /\ FolderNode (fold_left attach nodes folder) = FolderNode folder.
Proof.
  induction nodes as [|n ns IH]; intros folder; cbn [fold_left linksOf foldersOf flat_map].
  - now rewrite !app_nil_r.
  - destruct (IH (attach folder n)) as (Hl & Hf & Hn). rewrite Hl, Hf, Hn.
    destruct n; cbn [attach Links Folders FolderNode];
      rewrite <- ?app_assoc; repeat split; reflexivity.
Qed.

Section ChildOrder.
Context {Q : Quoter}.

(** [add] constructs the node of the item and appends it. *)
Lemma add_makeNode (root : Folder) (key : string) (item : json) :
  add root key item
  = match makeNode key item with
    | Ok n => Ok (attach root n)
    | Err err => Err err
    end.
Proof.
  rewrite add_eq. unfold makeNode.
  destruct item as [ | b | f | s | l | node]; try reflexivity.
  destruct (lookup "type" node) as [t|].
  - destruct t as [ | b | f | tag | l | m]; try reflexivity.
    destruct (String.eqb tag "folder").
    + destruct (makeChildFolder key node); reflexivity.
    + destruct (String.eqb tag "url"); [|reflexivity].
      destruct (makeLink key node); reflexivity.
  - destruct (makeRootFolder key node); reflexivity.
Qed.

(** The loop over [children] appends the nodes of the elements in the order
    of the array, and stops at the first element that fails. *)
Lemma rangeChildren_makeNodes (key : string) (cc : list json) :
  forall i folder,
    rangeChildren add key i cc folder
    = match makeNodes i cc with
      | Ok nodes => Ok (fold_left attach nodes folder)
      | Err err => Err (mapError key err)
      end.
Proof.
  induction cc as [|v rest IH]; intros i folder; cbn [rangeChildren makeNodes];
    [reflexivity|].
  rewrite add_makeNode.
  destruct (makeNode ("#" ++ Itoa (Z.of_nat i)) v) as [n|err]; [|reflexivity].
  rewrite IH. destruct (makeNodes (S i) rest); reflexivity.
Qed.

Lemma makeNodes_nth (cc : list json) :
  forall i nodes,
    makeNodes i cc = Ok nodes ->
    length nodes = length cc
    /\ forall j v, nth_error cc j = Some v ->
         exists n, nth_error nodes j = Some n
                   /\ makeNode ("#" ++ Itoa (Z.of_nat (i + j))) v = Ok n.
Proof.
  induction cc as [|w rest IH]; intros i nodes; cbn [makeNodes].
  - intros [= <-]. split; [reflexivity|]. intros [|j] v; discriminate.
  - destruct (makeNode ("#" ++ Itoa (Z.of_nat i)) w) as [n|] eqn:Hn; [|discriminate].
    destruct (makeNodes (S i) rest) as [ns|] eqn:Hns; [|discriminate].
    intros [= <-]. destruct (IH _ _ Hns) as [Hlen Hnth].
    split; [cbn; now rewrite Hlen|].
    intros [|j] v Hv; cbn in Hv.
    + injection Hv as <-. exists n. split; [reflexivity|]. now rewrite <- plus_n_O.
    + destruct (Hnth j v Hv) as (m & Hm & Hmk). exists m. split; [exact Hm|].
      now rewrite <- plus_n_Sm.
Qed.

(** A folder that is built holds the nodes of its [children], links and
    folders each in the order of the array. *)
Lemma makeChildFolder_nodes (key : string) (node : object) (cc : list json)
      (folder : Folder) :
  lookup "children" node = Some (JArray cc) ->
  makeChildFolder key node = Ok folder ->
  exists nd nodes,
    read key node = Ok nd
    /\ makeNodes 0 cc = Ok nodes
    /\ folder = mkFolder nd (linksOf nodes) (foldersOf nodes).
Proof.
  intros Hc. unfold makeChildFolder. rewrite Hc.
  destruct (read key node) as [nd|]; [|discriminate].
  rewrite rangeChildren_makeNodes.
  destruct (makeNodes 0 cc) as [nodes|]; [|discriminate].
  intros [= <-]. exists nd, nodes. split; [reflexivity|]. split; [reflexivity|].
  destruct (attach_all_Links nodes (mkFolder nd [] [])) as (Hl & Hf & Hn).
  destruct (fold_left attach nodes (mkFolder nd [] [])) as [n l f].
  cbn in Hl, Hf, Hn. now subst.
Qed.

(** C6.  Parsing keeps the order of the source: a folder built from a
    mapping with a [children] array holds one node per element, the node of
    the element at index [j] built under the key [#j], and its links and its
    subfolders are the links and the folders among these nodes, each in the
    order of the array.  Rendering writes the links in the order of the list
    of links and the subfolders in the order of the list of subfolders.  For
    the children link A, folder B, link C the folder holds the links A, C in
    that order, and the entry of A is written before the entry of C. *)
Theorem order_preserved :
  (forall key node cc folder,
     lookup "children" node = Some (JArray cc) ->
     makeChildFolder key node = Ok folder ->
     exists nodes,
       length nodes = length cc
       /\ (forall j v, nth_error cc j = Some v ->
             exists n, nth_error nodes j = Some n
                       /\ makeNode ("#" ++ Itoa (Z.of_nat j)) v = Ok n)
       /\ Links folder = linksOf nodes
       /\ Folders folder = foldersOf nodes)
  /\ (forall folder,
        output (folderLinks folder)
        = match Links folder with
          | [] => EmptyString
          | links => "<dl>" ++ concatAll (map linkText links) ++ "</dl>"
          end
        /\ output (folderList (Folders folder))
           = match Folders folder with
             | [] => EmptyString
             | folders =>
                 "<ul>"
                 ++ concatAll (map (fun f => "<li>" ++ folderText f ++ "</li>") folders)
                 ++ "</ul>"
             end)
  /\ (forall key node nd a b c la fb lc,
        read key node = Ok nd ->
        lookup "children" node = Some (JArray [a; b; c]) ->
        makeNode "#0" a = Ok (inl la) ->
        makeNode "#1" b = Ok (inr fb) ->
        makeNode "#2" c = Ok (inl lc) ->
        makeChildFolder key node = Ok (mkFolder nd [la; lc] [fb])
        /\ output (htmlListArgs
                     [folderName (mkFolder nd [la; lc] [fb]);
                      folderLinks (mkFolder nd [la; lc] [fb]);
                      folderList (Folders (mkFolder nd [la; lc] [fb]))])
           = "<h4>" ++ EscapeString (Name nd) ++ "</h4>"
             ++ "<dl>" ++ linkText la ++ linkText lc ++ "</dl>"
             ++ "<ul><li>" ++ folderText fb ++ "</li></ul>").
Proof.
  split; [|split].
  - intros key node cc folder Hc Hf.
    destruct (makeChildFolder_nodes _ _ _ _ Hc Hf) as (nd & nodes & _ & Hn & ->).
    destruct (makeNodes_nth _ _ _ Hn) as [Hlen Hnth].
    exists nodes. split; [exact Hlen|]. split; [exact Hnth|]. split; reflexivity.
  - intros folder. split.
    + rewrite (writes_output _ _ (writes_folderLinks folder)).
      unfold linksText. destruct (Links folder); reflexivity.
    + rewrite (writes_output _ _ (writes_folderList (Folders folder))).
      unfold foldersText. destruct (Folders folder); reflexivity.
  - intros key node nd a b c la fb lc Hread Hc Ha Hb Hcc. split.
    + unfold makeChildFolder. rewrite Hread, Hc, rangeChildren_makeNodes.
      cbn [makeNodes].
      change ("#" ++ Itoa (Z.of_nat 0)) with "#0".
      change ("#" ++ Itoa (Z.of_nat 1)) with "#1".
      change ("#" ++ Itoa (Z.of_nat 2)) with "#2".
      rewrite Ha, Hb, Hcc. reflexivity.
    + rewrite (writes_output _ _ (writes_folder (mkFolder nd [la; lc] [fb]))).
      cbn [Links Folders FolderNode linksText foldersText map concatAll fold_right].
      string_norm. reflexivity.
Qed.

End ChildOrder.

(** The folder of [threeChildren]: the links in the order of the array. *)
Lemma order_preserved_witness :
  let added := exactInstant 13000000000000000 in
  let la := mkLink (mkNode "Example" "#0" added zeroTime) "https://example.com" in
  let fb := mkFolder (mkNode "Sub" "#1" added zeroTime) [] [] in
  let lc := mkLink (mkNode "Other" "#2" (exactInstant 13000000000000001) zeroTime)
              "https://example.org" in
  @makeChildFolder asciiQuote "bar" threeChildren
  = Ok (mkFolder (mkNode "Bar" "bar" added zeroTime) [la; lc] [fb]).
Proof.
  cbv zeta.
  apply (proj1 (proj2 (proj2 (@order_preserved asciiQuote)) "bar" threeChildren
                  (mkNode "Bar" "bar" (exactInstant 13000000000000000) zeroTime)
                  exampleLink exampleFolder otherLink
                  (mkLink (mkNode "Example" "#0" (exactInstant 13000000000000000)
                             zeroTime) "https://example.com")
                  (mkFolder (mkNode "Sub" "#1" (exactInstant 13000000000000000)
                               zeroTime) [] [])
                  (mkLink (mkNode "Other" "#2" (exactInstant 13000000000000001)
                             zeroTime) "https://example.org")
                  eq_refl eq_refl eq_refl eq_refl eq_refl)).
Defined.

(* ================================================================= *)
(** ** Links before subfolders *)

Lemma Itoa_inj (a b : Z) : Itoa a = Itoa b -> a = b.
Proof.
  unfold Itoa. intros H.
  assert (Hnorm : forall z, Z.to_int z <> Decimal.Pos Decimal.Nil
                            /\ Z.to_int z <> Decimal.Neg Decimal.Nil).
  { intros [|p|p]; cbn; split; try discriminate;
      intros [= Hp]; exact (DecimalPos.Unsigned.to_uint_nonnil p Hp). }
  apply DecimalZ.to_int_inj.
  assert (Hsome : Some (Z.to_int a) = Some (Z.to_int b)).
  { rewrite <- (NilZero.isi (Z.to_int a)), <- (NilZero.isi (Z.to_int b));
      try apply Hnorm. now rewrite H. }
  now injection Hsome.
Qed.

Lemma childKey_inj (i j : nat) :
  "#" ++ Itoa (Z.of_nat i) = "#" ++ Itoa (Z.of_nat j) -> i = j.
Proof.
  cbn. intros [= H]. apply Itoa_inj in H. lia.
Qed.

Lemma attach_all_eq (nodes : list (Link + Folder)) (nd : Node) :
  fold_left attach nodes (mkFolder nd [] [])
  = mkFolder nd (linksOf nodes) (foldersOf nodes).
Proof.
  destruct (attach_all_Links nodes (mkFolder nd [] [])) as (Hl & Hf & Hn).
  destruct (fold_left attach nodes (mkFolder nd [] [])) as [n l f].
  cbn in Hl, Hf, Hn. now subst.
Qed.

Lemma linksText_wrap (links : list Link) :
  linksText links = wrapTexts "dl" (map linkText links).
Proof. destruct links; reflexivity. Qed.

Lemma foldersText_wrap (folders : list Folder) :
  foldersText folders = wrapTexts "ul" (map (fun f => nodeText (inr f)) folders).
Proof. destruct folders; reflexivity. Qed.

Lemma nodeText_rekey (key : string) (n : Link + Folder) :
  nodeText (rekey key n) = nodeText n.
Proof.
  destruct n as [l|f]; cbn [rekey nodeText]; [reflexivity|].
  now rewrite !folderText_eq.
Qed.

Section LinksBeforeFolders.
Context {Q : Quoter}.

(** The node of a link or typed folder under another key. *)
Lemma makeNode_rekey (key key' : string) (item : json) (n : Link + Folder) :
  hasType "url" item || hasType "folder" item = true ->
  makeNode key item = Ok n ->
  makeNode key' item = Ok (rekey key' n)
  /\ hasType "url" item = match n with inl _ => true | inr _ => false end
  /\ hasType "folder" item = match n with inl _ => false | inr _ => true end.
Proof.
  unfold hasType, makeNode.
  destruct item as [ | b | f | s | l | node]; try discriminate.
  destruct (lookup "type" node) as [t|]; [|discriminate].
  destruct t as [ | b | f | tag | l | m]; try discriminate.
  destruct (String.eqb_spec tag "folder") as [->|Hnf].
  - intros _. unfold makeChildFolder.
    destruct (read key node) as [nd|] eqn:Hread; [|discriminate].
    rewrite (read_ok_key _ key' _ _ Hread).
    destruct (lookup "children" node) as [c|].
    + destruct c as [ | b | f | s | cc | m]; try discriminate.
      rewrite !rangeChildren_makeNodes.
      destruct (makeNodes 0 cc) as [nodes|]; [|discriminate].
      rewrite !attach_all_eq. intros [= <-]. repeat split; reflexivity.
    + intros [= <-]. repeat split; reflexivity.
  - destruct (String.eqb_spec tag "url") as [->|Hnu]; [|discriminate].
    intros _. unfold makeLink.
    destruct (read key node) as [nd|] eqn:Hread; [|discriminate].
    rewrite (read_ok_key _ key' _ _ Hread).
    destruct (readString "url" node); [|discriminate].
    intros [= <-]. repeat split; reflexivity.
Qed.

(** [makeRootFolder] leaves the node it starts from: name and key are the
    key of the mapping. *)
Lemma makeRootFolder_node (key : string) (node : object) (folder : Folder) :
  makeRootFolder key node = Ok folder ->
  FolderNode folder = mkNode key key zeroTime zeroTime.
Proof.
  unfold makeRootFolder.
  assert (Hgen : forall data start r,
            rangeEntries add key data start = Ok r ->
            FolderNode r = FolderNode start).
  { induction data as [|[k v] rest IH]; intros start r; cbn [rangeEntries].
    - now intros [= <-].
    - rewrite add_makeNode. destruct (makeNode k v) as [m|]; [|discriminate].
      intros H. rewrite (IH _ _ H). destruct m; reflexivity. }
  intros H. rewrite (Hgen _ _ _ H). reflexivity.
Qed.

(** The key of a node is the key it was dispatched under. *)
Lemma makeNode_key (key : string) (item : json) (n : Link + Folder) :
  makeNode key item = Ok n ->
  nodeKey n = key
  /\ hasType "url" item = match n with inl _ => true | inr _ => false end.
Proof.
  unfold hasType, makeNode.
  destruct item as [ | b | f | s | l | node]; try discriminate.
  destruct (lookup "type" node) as [t|].
  - destruct t as [ | b | f | tag | l | m]; try discriminate.
    destruct (String.eqb_spec tag "folder") as [->|Hnf].
    + unfold makeChildFolder.
      destruct (read key node) as [nd|] eqn:Hread; [|discriminate].
      assert (Hk : Key nd = key).
      { pose proof (read_ok_key _ key _ _ Hread) as H'. rewrite Hread in H'.
        injection H' as H'. rewrite H'. reflexivity. }
      destruct (lookup "children" node) as [c|].
      * destruct c as [ | b | f | s | cc | m]; try discriminate.
        rewrite rangeChildren_makeNodes.
        destruct (makeNodes 0 cc) as [nodes|]; [|discriminate].
        rewrite attach_all_eq. intros [= <-]. split; [exact Hk | reflexivity].
      * intros [= <-]. split; [exact Hk | reflexivity].
    + destruct (String.eqb_spec tag "url") as [->|Hnu]; [|discriminate].
      unfold makeLink.
      destruct (read key node) as [nd|] eqn:Hread; [|discriminate].
      assert (Hk : Key nd = key).
      { pose proof (read_ok_key _ key _ _ Hread) as H'. rewrite Hread in H'.
        injection H' as H'. rewrite H'. reflexivity. }
      destruct (readString "url" node); [|discriminate].
      intros [= <-]. split; [exact Hk | reflexivity].
  - destruct (makeRootFolder key node) as [f|] eqn:Hr; [|discriminate].
    intros [= <-]. split; [|reflexivity]. cbn [nodeKey].
    rewrite (makeRootFolder_node _ _ _ Hr). reflexivity.
Qed.

End LinksBeforeFolders.

Section Interleaving.
Context {Q : Quoter}.

(** The texts of the links and of the folders among the nodes of an array
    of typed elements are the texts of its link elements and of its folder
    elements, whatever lies between them. *)
Lemma makeNodes_texts (cc : list json) :
  forall i nodes,
    Forall (fun v => hasType "url" v || hasType "folder" v = true) cc ->
    makeNodes i cc = Ok nodes ->
    map linkText (linksOf nodes) = map itemText (filter (hasType "url") cc)
    /\ map (fun f => nodeText (inr f)) (foldersOf nodes)
       = map itemText (filter (hasType "folder") cc).
Proof.
  induction cc as [|v rest IH]; intros i nodes Htyped; cbn [makeNodes].
  - intros [= <-]. split; reflexivity.
  - destruct (makeNode ("#" ++ Itoa (Z.of_nat i)) v) as [n|] eqn:Hn; [|discriminate].
    destruct (makeNodes (S i) rest) as [ns|] eqn:Hns; [|discriminate].
    intros [= <-]. inversion Htyped as [|v' rest' Hv Hrest]; subst.
    destruct (IH _ _ Hrest Hns) as [IHl IHf].
    destruct (makeNode_rekey _ EmptyString _ _ Hv Hn) as (Hre & Hurl & Hfolder).
    assert (Htext : itemText v = nodeText n).
    { unfold itemText. rewrite Hre. rewrite <- (nodeText_rekey EmptyString n).
      destruct (rekey EmptyString n); reflexivity. }
    cbn [filter]. rewrite Hurl, Hfolder.
    destruct n as [l|f]; cbn [linksOf foldersOf flat_map app map];
      fold (linksOf ns); fold (foldersOf ns); rewrite ?Htext, ?IHl, ?IHf;
      split; reflexivity.
Qed.

Lemma nth_linksOf (nodes : list (Link + Folder)) (j : nat) (n : Link + Folder) :
  nth_error nodes j = Some n ->
  match n with
  | inl link => In link (linksOf nodes)
  | inr folder => In folder (foldersOf nodes)
  end.
Proof.
  intros H. apply nth_error_In in H.
  destruct n as [l|f]; apply in_flat_map; eexists; (split; [exact H|]); now left.
Qed.

(** C10, as the code has it.  The text of a folder is its heading, then the
    whole [<dl>] block of its links, then the whole [<ul>] block of its
    subfolders.  For a folder built from a [children] array of links and
    typed folders, these blocks hold the texts of the link elements and of
    the folder elements, each in the order of the array: two arrays with the
    same links in the same order and the same folders in the same order give
    the same text under the same name, however links and folders alternate.
    The tree itself keeps the place of every child in its key: the child of
    the element at index [j] is a link or a folder with the key [#j], as the
    element is a link or not, and different indexes give different keys.  A
    child mapping without [type] becomes a folder named by that key. *)
Theorem links_before_folders :
  (forall folder,
     output (htmlListArgs
               [folderName folder; folderLinks folder; folderList (Folders folder)])
     = "<h4>" ++ EscapeString (Name (FolderNode folder)) ++ "</h4>"
       ++ wrapTexts "dl" (map linkText (Links folder))
       ++ wrapTexts "ul" (map (fun f => "<li>" ++ folderText f ++ "</li>")
                              (Folders folder)))
  /\ (forall key node cc folder,
        lookup "children" node = Some (JArray cc) ->
        makeChildFolder key node = Ok folder ->
        Forall (fun v => hasType "url" v || hasType "folder" v = true) cc ->
        map linkText (Links folder) = map itemText (filter (hasType "url") cc)
        /\ map (fun f => "<li>" ++ folderText f ++ "</li>") (Folders folder)
           = map itemText (filter (hasType "folder") cc))
  /\ (forall key node cc folder key' node' cc' folder',
        lookup "children" node = Some (JArray cc) ->
        lookup "children" node' = Some (JArray cc') ->
        makeChildFolder key node = Ok folder ->
        makeChildFolder key' node' = Ok folder' ->
        Name (FolderNode folder) = Name (FolderNode folder') ->
        Forall (fun v => hasType "url" v || hasType "folder" v = true) cc ->
        Forall (fun v => hasType "url" v || hasType "folder" v = true) cc' ->
        filter (hasType "url") cc = filter (hasType "url") cc' ->
        filter (hasType "folder") cc = filter (hasType "folder") cc' ->
        output (htmlListArgs
                  [folderName folder; folderLinks folder; folderList (Folders folder)])
        = output (htmlListArgs
                    [folderName folder'; folderLinks folder';
                     folderList (Folders folder')]))
  /\ (forall key node cc folder,
        lookup "children" node = Some (JArray cc) ->
        makeChildFolder key node = Ok folder ->
        forall j v, nth_error cc j = Some v ->
          if hasType "url" v
          then exists link, In link (Links folder)
                            /\ Key (LinkNode link) = "#" ++ Itoa (Z.of_nat j)
          else exists sub, In sub (Folders folder)
                           /\ Key (FolderNode sub) = "#" ++ Itoa (Z.of_nat j))
  /\ (forall i j : nat,
        "#" ++ Itoa (Z.of_nat i) = "#" ++ Itoa (Z.of_nat j) -> i = j)
  /\ (forall key node n,
        lookup "type" node = None ->
        makeNode key (JObject node) = Ok n ->
        exists sub, n = inr sub /\ Name (FolderNode sub) = key).
Proof.
  assert (Hshape : forall folder,
            output (htmlListArgs
                      [folderName folder; folderLinks folder;
                       folderList (Folders folder)])
            = "<h4>" ++ EscapeString (Name (FolderNode folder)) ++ "</h4>"
              ++ wrapTexts "dl" (map linkText (Links folder))
              ++ wrapTexts "ul" (map (fun f => "<li>" ++ folderText f ++ "</li>")
                                     (Folders folder))).
  { intros folder. rewrite (writes_output _ _ (writes_folder folder)).
    now rewrite linksText_wrap, foldersText_wrap. }
  assert (Htexts : forall key node cc folder,
            lookup "children" node = Some (JArray cc) ->
            makeChildFolder key node = Ok folder ->
            Forall (fun v => hasType "url" v || hasType "folder" v = true) cc ->
            map linkText (Links folder) = map itemText (filter (hasType "url") cc)
            /\ map (fun f => "<li>" ++ folderText f ++ "</li>") (Folders folder)
               = map itemText (filter (hasType "folder") cc)).
  { intros key node cc folder Hc Hf Htyped.
    destruct (makeChildFolder_nodes _ _ _ _ Hc Hf) as (nd & nodes & _ & Hn & ->).
    exact (makeNodes_texts _ _ _ Htyped Hn). }
  split; [exact Hshape|]. split; [exact Htexts|]. split; [|split; [|split]].
  - intros key node cc folder key' node' cc' folder'
           Hc Hc' Hf Hf' Hname Ht Ht' Hurl Hfolder.
    destruct (Htexts _ _ _ _ Hc Hf Ht) as [Hl1 Hf1].
    destruct (Htexts _ _ _ _ Hc' Hf' Ht') as [Hl2 Hf2].
    rewrite !Hshape, Hname, Hl1, Hf1, Hl2, Hf2, Hurl, Hfolder. reflexivity.
  - intros key node cc folder Hc Hf j v Hv.
    destruct (makeChildFolder_nodes _ _ _ _ Hc Hf) as (nd & nodes & _ & Hn & ->).
    destruct (makeNodes_nth _ _ _ Hn) as [_ Hnth].
    destruct (Hnth j v Hv) as (n & Hnj & Hmk).
    destruct (makeNode_key _ _ _ Hmk) as [Hkey Hurl].
    pose proof (nth_linksOf _ _ _ Hnj) as Hin.
    rewrite Hurl. destruct n as [l|f]; cbn [Links Folders];
      eexists; (split; [exact Hin | exact Hkey]).
  - exact childKey_inj.
  - intros key node n Htype. cbn [makeNode]. rewrite Htype.
    destruct (makeRootFolder key node) as [f|] eqn:Hr; [|discriminate].
    intros [= <-]. exists f. split; [reflexivity|].
    rewrite (makeRootFolder_node _ _ _ Hr). reflexivity.
Qed.

End Interleaving.

(** A link before a folder and the folder before the link: one text. *)
Lemma links_before_folders_witness :
  @makeChildFolder asciiQuote "bar" linkFirst = Ok linkFirstTree
  /\ @makeChildFolder asciiQuote "bar" folderFirst = Ok folderFirstTree
  /\ output (htmlListArgs
                [folderName linkFirstTree; folderLinks linkFirstTree;
                 folderList (Folders linkFirstTree)])
     = output (htmlListArgs
                 [folderName folderFirstTree; folderLinks folderFirstTree;
                  folderList (Folders folderFirstTree)]).
Proof.
  split; [reflexivity|]. split; [reflexivity|].
  apply (proj1 (proj2 (proj2 (@links_before_folders asciiQuote)))
           "bar" linkFirst [exampleLink; exampleFolder] linkFirstTree
           "bar" folderFirst [exampleFolder; exampleLink] folderFirstTree
           eq_refl eq_refl eq_refl eq_refl eq_refl).
  - repeat constructor.
  - repeat constructor.
  - reflexivity.
  - reflexivity.
Defined.

(** C10 as the claim states it fails for the tree: the two orders of a link
    and a folder give two different trees, and the keys of the children tell
    which element came first.  A child mapping without [type] shows its
    place in the output too: it is a folder named by its key. *)
Lemma links_before_folders_counterexample :
  @makeChildFolder asciiQuote "bar" linkFirst = Ok linkFirstTree
  /\ @makeChildFolder asciiQuote "bar" folderFirst = Ok folderFirstTree
  /\ map (fun l => Key (LinkNode l)) (Links linkFirstTree) = ["#0"]
  /\ map (fun f => Key (FolderNode f)) (Folders linkFirstTree) = ["#1"]
  /\ map (fun l => Key (LinkNode l)) (Links folderFirstTree) = ["#1"]
  /\ map (fun f => Key (FolderNode f)) (Folders folderFirstTree) = ["#0"]
  /\ linkFirstTree <> folderFirstTree
  /\ @makeChildFolder asciiQuote "bar" untypedSecond
     = Ok (mkFolder (mkNode "Bar" "bar" (exactInstant 13000000000000000) zeroTime)
             (Links linkFirstTree) [newRootFolder "#1"])
  /\ @makeChildFolder asciiQuote "bar" untypedFirst
     = Ok (mkFolder (mkNode "Bar" "bar" (exactInstant 13000000000000000) zeroTime)
             (Links folderFirstTree) [newRootFolder "#0"])
  /\ output (folderList [newRootFolder "#1"]) = "<ul><li><h4>#1</h4></li></ul>"
  /\ output (folderList [newRootFolder "#0"]) = "<ul><li><h4>#0</h4></li></ul>".
Proof.
  repeat (split; [reflexivity|]). split; [discriminate|].
  repeat (split; [reflexivity|]). reflexivity.
Qed.

(* ================================================================= *)
(** * Further properties *)

(* ================================================================= *)
(** ** The timestamp decoder outside the non-negative range *)

(** [Add] on an instant with no nanoseconds, for every [int64] duration that
    keeps the seconds in range: the floor quotient goes to the seconds, the
    remainder to the nanoseconds. *)
Lemma Add_floor (ts : Time) (d : Z) :
  - 2 ^ 63 <= d < 2 ^ 63 -> 9223372038 <= sec ts < 2 ^ 62 -> nsec ts = 0 ->
  Add ts d = mkTime (sec ts + d / 1000000000) (d mod 1000000000).
Proof.
  intros Hd Hs Hn. int64_bounds. change (2 ^ 62) with 4611686018427387904 in *.
  unfold Add. rewrite Hn, Z.add_0_l.
  pose proof (Z.quot_rem d 1000000000 ltac:(lia)) as Hqr.
  pose proof (Z.rem_bound_abs d 1000000000 ltac:(lia)) as Hrb.
  pose proof (Z.div_mod d 1000000000 ltac:(lia)) as Hdm.
  pose proof (Z.mod_pos_bound d 1000000000 eq_refl) as Hmb.
  assert (Hq : - 9223372037 <= Z.quot d 1000000000 <= 9223372037).
  { split.
    - apply Z.quot_le_lower_bound; lia.
    - apply Z.quot_le_upper_bound; lia. }
  rewrite (wrap64_small (sec ts + Z.quot d 1000000000)) by (int64_bounds; lia).
  destruct (Z.leb_spec 1000000000 (Z.rem d 1000000000)); [lia|].
  destruct (Z.ltb_spec (Z.rem d 1000000000) 0).
  - rewrite wrap64_small by (int64_bounds; lia). f_equal; nia.
  - f_equal; nia.
Qed.

Lemma decodeTimeStamp_negative (t : Z) :
  t < 0 -> decodeTimeStamp t = Add googleEpoch (wrap64 (t * 1000)).
Proof.
  intros Ht. unfold decodeTimeStamp. simp chunks.
  destruct (Z_le_dec twoCenturies t) as [Hge|Hlt]; cbn.
  - rewrite twoCenturies_value in Hge. lia.
  - reflexivity.
Qed.

Lemma wrap64_range (z : Z) : - 2 ^ 63 <= wrap64 z < 2 ^ 63.
Proof.
  unfold wrap64. pose proof (Z.mod_pos_bound (z + 2 ^ 63) (2 ^ 64) eq_refl).
  int64_bounds. lia.
Qed.

Lemma nanos_exactInstant (t : Z) :
  nanos (exactInstant t) = nanos googleEpoch + t * 1000.
Proof.
  unfold nanos, exactInstant. cbn [sec nsec googleEpoch].
  pose proof (Z.div_mod t 1000000 ltac:(lia)). lia.
Qed.

Lemma nanos_Add_googleEpoch (d : Z) :
  - 2 ^ 63 <= d < 2 ^ 63 ->
  nanos (Add googleEpoch d) = nanos googleEpoch + d
  /\ 0 < sec (Add googleEpoch d)
  /\ 0 <= nsec (Add googleEpoch d) < 1000000000.
Proof.
  intros Hd. rewrite Add_floor; [|exact Hd|cbn; lia|reflexivity].
  unfold nanos. cbn [sec nsec googleEpoch]. int64_bounds.
  pose proof (Z.div_mod d 1000000000 ltac:(lia)).
  pose proof (Z.mod_pos_bound d 1000000000 eq_refl).
  assert (- 9223372037 <= d / 1000000000) by (apply Z.div_le_lower_bound; lia).
  lia.
Qed.

Lemma decodeTimeStamp_exact_from (t : Z) :
  - 9223372036854775 <= t < 2 ^ 63 ->
  decodeTimeStamp t = exactInstant t.
Proof.
  intros Ht. destruct (Z.le_gt_cases 0 t) as [Hpos|Hneg].
  - apply decodeTimeStamp_exactInstant. lia.
  - rewrite (decodeTimeStamp_negative t Hneg).
    rewrite wrap64_small by (int64_bounds; lia).
    rewrite Add_floor; [|int64_bounds; lia|cbn; lia|reflexivity].
    unfold exactInstant. cbn [sec nsec googleEpoch].
    assert (Hq : t * 1000 / 1000000000 = t / 1000000).
    { replace 1000000000 with (1000 * 1000000) by reflexivity.
      rewrite (Z.mul_comm t 1000), Z.div_mul_cancel_l by lia. reflexivity. }
    assert (Hr : (t * 1000) mod 1000000000 = t mod 1000000 * 1000).
    { replace 1000000000 with (1000000 * 1000) by reflexivity.
      rewrite Z.mul_mod_distr_r by lia. reflexivity. }
    now rewrite Hq, Hr.
Qed.

(** X1.  The decoder is exact on the whole range on which the last
    multiplication by 1000 fits [int64], and nowhere else: for an [int64]
    count [t] of microseconds, [decodeTimeStamp t] is January 1, 1601 plus
    [t] microseconds if and only if [t] is at least -9223372036854775 (about
    292 years before 1601).  Below, [val * 1000] wraps around and the result
    is another instant. *)
Theorem decodeTimeStamp_exact_iff (t : Z) :
  - 2 ^ 63 <= t < 2 ^ 63 ->
  (decodeTimeStamp t = exactInstant t <-> - 9223372036854775 <= t).
Proof.
  intros Ht. split.
  - destruct (Z.le_gt_cases 0 t) as [Hpos|Hneg]; [lia|].
    rewrite (decodeTimeStamp_negative t Hneg).
    pose proof (wrap64_range (t * 1000)) as Hw.
    destruct (nanos_Add_googleEpoch _ Hw) as (Hn & _ & _).
    pose proof (nanos_exactInstant t) as He.
    intros Heq. rewrite Heq, He in Hn.
    assert (Hfix : wrap64 (t * 1000) = t * 1000) by lia.
    rewrite Hfix in Hw. int64_bounds. lia.
  - intros Hlow. apply decodeTimeStamp_exact_from. lia.
Qed.

(** The two ends of the range: the least exact count, and the count below. *)
Lemma decodeTimeStamp_exact_iff_witness :
  (- 2 ^ 63 <= - 9223372036854775 < 2 ^ 63)
  /\ decodeTimeStamp (- 9223372036854775) = exactInstant (- 9223372036854775)
  /\ (- 2 ^ 63 <= - 9223372036854776 < 2 ^ 63)
  /\ (decodeTimeStamp (- 9223372036854776) = exactInstant (- 9223372036854776)
      -> - 9223372036854775 <= - 9223372036854776).
Proof.
  assert (H1 : - 2 ^ 63 <= - 9223372036854775 < 2 ^ 63) by (int64_bounds; lia).
  assert (H2 : - 2 ^ 63 <= - 9223372036854776 < 2 ^ 63) by (int64_bounds; lia).
  split; [exact H1|]. split.
  - apply (proj2 (decodeTimeStamp_exact_iff (- 9223372036854775) H1)). lia.
  - split; [exact H2|].
    exact (proj1 (decodeTimeStamp_exact_iff (- 9223372036854776) H2)).
Defined.

(** X2.  On the range on which it is exact the decoder loses nothing: the
    microseconds of the decoded instant since [googleEpoch] are the count it
    was decoded from, so two different counts never decode to one instant. *)
Theorem decodeTimeStamp_round_trip (t : Z) :
  - 9223372036854775 <= t < 2 ^ 63 ->
  encodeTimeStamp (decodeTimeStamp t) = t
  /\ forall t', - 9223372036854775 <= t' < 2 ^ 63 ->
       decodeTimeStamp t = decodeTimeStamp t' -> t = t'.
Proof.
  assert (Hrt : forall u, - 9223372036854775 <= u < 2 ^ 63 ->
                  encodeTimeStamp (decodeTimeStamp u) = u).
  { intros u Hu.
    rewrite (decodeTimeStamp_exact_from u Hu).
    unfold encodeTimeStamp, exactInstant. cbn [sec nsec googleEpoch].
    rewrite Z.div_mul by lia.
    pose proof (Z.div_mod u 1000000 ltac:(lia)). lia. }
  intros Ht. split; [exact (Hrt t Ht)|].
  intros t' Ht' Heq. rewrite <- (Hrt t Ht), <- (Hrt t' Ht'), Heq. reflexivity.
Qed.

(** One microsecond before the epoch. *)
Lemma decodeTimeStamp_round_trip_witness :
  (- 9223372036854775 <= - 1 < 2 ^ 63)
  /\ decodeTimeStamp (- 1) = mkTime 50491123199 999999000
  /\ encodeTimeStamp (decodeTimeStamp (- 1)) = - 1.
Proof.
  assert (H : - 9223372036854775 <= - 1 < 2 ^ 63) by (int64_bounds; lia).
  split; [exact H|]. split; [reflexivity|].
  exact (proj1 (decodeTimeStamp_round_trip (- 1) H)).
Defined.

(** No [int64] count decodes to the zero [time.Time]. *)
Lemma decodeTimeStamp_after_year_one (v : Z) :
  - 2 ^ 63 <= v < 2 ^ 63 -> 0 < sec (decodeTimeStamp v).
Proof.
  intros Hv. destruct (Z.le_gt_cases 0 v) as [Hpos|Hneg].
  - rewrite decodeTimeStamp_exactInstant by lia.
    unfold exactInstant. cbn [sec googleEpoch].
    assert (0 <= v / 1000000) by (apply Z.div_pos; lia). lia.
  - rewrite (decodeTimeStamp_negative v Hneg).
    exact (proj1 (proj2 (nanos_Add_googleEpoch _ (wrap64_range (v * 1000))))).
Qed.

Section StampsOfNodes.
Context {Q : Quoter}.

Lemma readTimeStamp_after_year_one (key : string) (data : object) (ts : Time) :
  readTimeStamp key data = Ok ts -> 0 < sec ts.
Proof.
  unfold readTimeStamp, readInt.
  destruct (readString key data) as [s|]; [|discriminate].
  destruct (ParseInt s 64) as [v|] eqn:Hp; [|discriminate].
  intros [= <-]. apply decodeTimeStamp_after_year_one.
  exact (proj2 (ParseInt_range _ _ _ Hp)).
Qed.

(** X3.  In a node that is read, the modified time is the zero time exactly
    when the field [date_modified] is absent: a field that is present never
    decodes to the zero time, whatever integer it holds.  The added time is
    never the zero time. *)
Theorem read_modified_zero_iff_absent (key : string) (data : object) (nd : Node) :
  read key data = Ok nd ->
  (Modified nd = zeroTime <-> lookup "date_modified" data = None)
  /\ Added nd <> zeroTime.
Proof.
  unfold read.
  destruct (readString "name" data) as [name|]; [|discriminate].
  destruct (readTimeStamp "date_added" data) as [added|] eqn:Ha; [|discriminate].
  pose proof (readTimeStamp_after_year_one _ _ _ Ha) as Hadded.
  assert (Hnz : forall ts, 0 < sec ts -> ts <> zeroTime).
  { intros ts Hts ->. cbn in Hts. lia. }
  destruct (readTimeStamp "date_modified" data) as [modified|e] eqn:Hm.
  - intros [= <-]. cbn [Modified Added].
    split; [|exact (Hnz _ Hadded)].
    pose proof (readTimeStamp_after_year_one _ _ _ Hm) as Hmod.
    split.
    + intros Hz. now destruct (Hnz _ Hmod).
    + intros Habs. unfold readTimeStamp, readInt, readString in Hm.
      rewrite Habs in Hm. discriminate.
  - destruct e as [k|msg|path msg]; try discriminate.
    intros [= <-]. cbn [Modified Added].
    split; [|exact (Hnz _ Hadded)].
    split; [intros _|reflexivity].
    exact (readTimeStamp_not_found _ _ _ Hm).
Qed.

End StampsOfNodes.

(** The example link has no [date_modified]. *)
Lemma read_modified_zero_iff_absent_witness :
  @read asciiQuote "#0"
    [("name", JString "Example"); ("date_added", JString "13000000000000000")]
  = Ok (mkNode "Example" "#0" (exactInstant 13000000000000000) zeroTime)
  /\ exactInstant 13000000000000000 <> zeroTime.
Proof.
  split; [reflexivity|].
  exact (proj2 (@read_modified_zero_iff_absent asciiQuote "#0"
                  [("name", JString "Example");
                   ("date_added", JString "13000000000000000")]
                  (mkNode "Example" "#0" (exactInstant 13000000000000000) zeroTime)
                  eq_refl)).
Defined.

(* ================================================================= *)
(** ** The documents the builder accepts *)

Section Acceptance.
Context {Q : Quoter}.

Lemma readString_ok_iff (key : string) (data : object) :
  (exists s, readString key data = Ok s)
  <-> exists s, lookup key data = Some (JString s).
Proof.
  unfold readString. destruct (lookup key data) as [v|].
  - destruct v; split; intros [x H]; try discriminate; eauto.
  - split; intros [x H]; discriminate.
Qed.

Lemma readTimeStamp_ok_iff (key : string) (data : object) :
  (exists ts, readTimeStamp key data = Ok ts) <-> validStamp key data.
Proof.
  unfold readTimeStamp, readInt, readString, validStamp.
  destruct (lookup key data) as [v|].
  - destruct v as [ | b | f | s | l | m];
      try (split; [intros [ts H]; discriminate
                  | intros (s' & v' & H & _); discriminate]).
    destruct (ParseInt s 64) as [val|] eqn:Hp.
    + split; [intros _; eauto | intros _; eauto].
    + split; [intros [ts H]; discriminate|].
      intros (s' & v' & [= <-] & Hp'). congruence.
  - split; [intros [ts H]; discriminate | intros (s' & v' & H & _); discriminate].
Qed.

Lemma read_ok_iff (key : string) (data : object) :
  (exists nd, read key data = Ok nd) <-> validHeader data.
Proof.
  unfold read, validHeader.
  pose proof (readString_ok_iff "name" data) as Hname.
  pose proof (readTimeStamp_ok_iff "date_added" data) as Hadded.
  pose proof (readTimeStamp_ok_iff "date_modified" data) as Hmod.
  destruct (readString "name" data) as [name|e1].
  - destruct (readTimeStamp "date_added" data) as [added|e2].
    + destruct (readTimeStamp "date_modified" data) as [modified|e3] eqn:Hm.
      * split; [intros _|eauto].
        split; [apply Hname; eauto|]. split; [apply Hadded; eauto|].
        right. apply Hmod. eauto.
      * destruct e3 as [k|msg|path msg].
        -- split; [intros _|eauto].
           split; [apply Hname; eauto|]. split; [apply Hadded; eauto|].
           left. exact (readTimeStamp_not_found _ _ _ Hm).
        -- split; [intros [nd H]; discriminate|].
           intros (_ & _ & [Habs|Hv]).
           ++ unfold readTimeStamp, readInt, readString in Hm.
              rewrite Habs in Hm. discriminate.
           ++ apply Hmod in Hv. destruct Hv as [ts Hts]. discriminate.
        -- now destruct (readTimeStamp_fieldError _ _ _ Hm).
    + split; [intros [nd H]; discriminate|].
      intros (_ & Hv & _). apply Hadded in Hv. destruct Hv as [ts Hts].
      discriminate.
  - split; [intros [nd H]; discriminate|].
    intros (Hv & _). apply Hname in Hv. destruct Hv as [s Hs]. discriminate.
Qed.

(** The loop over the entries of a mapping appends the nodes of the entries
    in the order visited, and stops at the first entry that fails. *)
Lemma rangeEntries_makeEntryNodes (key : string) (node : object) :
  forall folder,
    rangeEntries add key node folder
    = match makeEntryNodes node with
      | Ok nodes => Ok (fold_left attach nodes folder)
      | Err err => Err (mapError key err)
      end.
Proof.
  induction node as [|[k v] rest IH]; intros folder;
    cbn [rangeEntries makeEntryNodes]; [reflexivity|].
  rewrite add_makeNode.
  destruct (makeNode k v) as [n|err]; [|reflexivity].
  rewrite IH. destruct (makeEntryNodes rest); reflexivity.
Qed.

Lemma makeNodes_ok_iff (cc : list json) :
  Forall (fun v => forall key, (exists n, makeNode key v = Ok n) <-> valid v) cc ->
  forall i, (exists nodes, makeNodes i cc = Ok nodes) <-> Forall valid cc.
Proof.
  induction 1 as [|v rest Hv _ IH]; intros i; cbn [makeNodes].
  - split; [constructor | eauto].
  - specialize (Hv ("#" ++ Itoa (Z.of_nat i))). specialize (IH (S i)).
    destruct (makeNode ("#" ++ Itoa (Z.of_nat i)) v) as [n|e].
    + destruct (makeNodes (S i) rest) as [ns|e].
      * split; [intros _|eauto].
        constructor; [apply Hv; eauto | apply IH; eauto].
      * split; [intros [ns H]; discriminate|].
        intros Hall. inversion Hall as [|? ? _ Hrest]; subst.
        apply IH in Hrest. destruct Hrest as [ns Hns]. discriminate.
    + split; [intros [ns H]; discriminate|].
      intros Hall. inversion Hall as [|? ? Hval _]; subst.
      apply Hv in Hval. destruct Hval as [n Hn]. discriminate.
Qed.

Lemma makeEntryNodes_ok_iff (node : object) :
  Forall (fun kv => forall key, (exists n, makeNode key (snd kv) = Ok n)
                                <-> valid (snd kv)) node ->
  (exists nodes, makeEntryNodes node = Ok nodes)
  <-> Forall (fun kv => valid (snd kv)) node.
Proof.
  induction 1 as [|[k v] rest Hv _ IH]; cbn [makeEntryNodes].
  - split; [constructor | eauto].
  - cbn [snd] in Hv. specialize (Hv k).
    destruct (makeNode k v) as [n|e].
    + destruct (makeEntryNodes rest) as [ns|e].
      * split; [intros _|eauto].
        constructor; [apply Hv; eauto | apply IH; eauto].
      * split; [intros [ns H]; discriminate|].
        intros Hall. inversion Hall as [|? ? _ Hrest]; subst.
        apply IH in Hrest. destruct Hrest as [ns Hns]. discriminate.
    + split; [intros [ns H]; discriminate|].
      intros Hall. inversion Hall as [|? ? Hval _]; subst.
      apply Hv in Hval. destruct Hval as [n Hn]. discriminate.
Qed.

(** A value with one of the shapes of [valid] is refused when its premises
    fail. *)
Ltac refuse_valid :=
  let H := fresh "Hvalid" in
  intros H; inversion H; subst; try congruence.

Lemma makeNode_accepts (item : json) :
  (forall key, (exists n, makeNode key item = Ok n) <-> valid item)
  /\ (forall cc, item = JArray cc ->
        Forall (fun v => forall key, (exists n, makeNode key v = Ok n) <-> valid v) cc).
Proof.
  induction item as [ | b | f | s | elems IH | entries IH] using json_nested_ind;
    (split; [|try discriminate]).
  1-5: intros key; split; [intros [n H]; discriminate | refuse_valid].
  - intros cc [= <-]. revert IH. apply Forall_impl. intros v Hv. exact (proj1 Hv).
  - assert (IHentries : Forall (fun kv => forall key,
                                  (exists n, makeNode key (snd kv) = Ok n)
                                  <-> valid (snd kv)) entries).
    { revert IH. apply Forall_impl. intros kv Hkv. exact (proj1 Hkv). }
    intros key. cbn [makeNode].
    destruct (lookup "type" entries) as [t|] eqn:Htype.
    + destruct t as [ | b | f | tag | l | m];
        try (split; [intros [n H]; discriminate | refuse_valid]).
      destruct (String.eqb_spec tag "folder") as [->|Hnf].
      * unfold makeChildFolder.
        pose proof (read_ok_iff key entries) as Hread.
        destruct (read key entries) as [nd|e].
        -- assert (Hheader : validHeader entries) by (apply Hread; eauto).
           destruct (lookup "children" entries) as [c|] eqn:Hc.
           ++ destruct c as [ | b | f | s | cc | m];
                try (split; [intros [n H]; discriminate | refuse_valid]).
              rewrite rangeChildren_makeNodes.
              assert (IHcc : Forall (fun v => forall key,
                                       (exists n, makeNode key v = Ok n) <-> valid v) cc).
              { apply lookup_In in Hc. rewrite Forall_forall in IH.
                exact (proj2 (IH _ Hc) cc eq_refl). }
              pose proof (makeNodes_ok_iff cc IHcc 0) as Hcc.
              destruct (makeNodes 0 cc) as [nodes|e].
              ** split; [intros _|eauto].
                 apply (valid_folder entries cc); try assumption.
                 apply Hcc. eauto.
              ** split; [intros [n H]; discriminate|].
                 refuse_valid.
                 assert (cc0 = cc) by congruence. subst cc0.
                 match goal with
                 | Hall : Forall valid cc |- _ =>
                     apply Hcc in Hall; destruct Hall as [ns Hns]; discriminate
                 end.
           ++ split; [intros _|eauto].
              apply valid_leaf; assumption.
        -- split; [intros [n H]; discriminate|].
           assert (Hno : ~ validHeader entries).
           { intros Hh. apply Hread in Hh. destruct Hh as [nd Hnd]. discriminate. }
           refuse_valid; contradiction.
      * destruct (String.eqb_spec tag "url") as [->|Hnu].
        -- unfold makeLink.
           pose proof (read_ok_iff key entries) as Hread.
           pose proof (readString_ok_iff "url" entries) as Hurl.
           destruct (read key entries) as [nd|e].
           ++ assert (Hheader : validHeader entries) by (apply Hread; eauto).
              destruct (readString "url" entries) as [url|e].
              ** split; [intros _|eauto].
                 destruct (proj1 Hurl ltac:(eauto)) as [u Hu].
                 apply (valid_link entries u); assumption.
              ** split; [intros [n H]; discriminate|].
                 refuse_valid.
                 match goal with
                 | Hu : lookup "url" entries = Some (JString ?u) |- _ =>
                     destruct (proj2 Hurl (ex_intro _ u Hu)) as [x Hx]; discriminate
                 end.
           ++ split; [intros [n H]; discriminate|].
              assert (Hno : ~ validHeader entries).
              { intros Hh. apply Hread in Hh. destruct Hh as [nd Hnd]. discriminate. }
              refuse_valid; contradiction.
        -- split; [intros [n H]; discriminate | refuse_valid].
    + unfold makeRootFolder. rewrite rangeEntries_makeEntryNodes.
      pose proof (makeEntryNodes_ok_iff entries IHentries) as Hen.
      destruct (makeEntryNodes entries) as [nodes|e].
      * split; [intros _|eauto].
        apply valid_container; [assumption|]. apply Hen. eauto.
      * split; [intros [n H]; discriminate|].
        refuse_valid.
        match goal with
        | Hall : Forall _ entries |- _ =>
            apply Hen in Hall; destruct Hall as [ns Hns]; discriminate
        end.
Qed.

(** X4.  What the builder accepts.  [add] succeeds on a value exactly when
    the value is [valid]: a link mapping with a [name] string, a decimal
    [int64] string [date_added], a [date_modified] that is absent or such a
    string, and a [url] string; a folder mapping with the same header and no
    [children] or an array of valid values; or a mapping without [type]
    whose every entry is valid.  [buildTree] succeeds exactly on a mapping
    whose every entry is valid.  Neither the key nor the receiver matters. *)
Theorem builder_accepts (item : json) :
  (forall root key, (exists root', add root key item = Ok root') <-> valid item)
  /\ (forall key,
        (exists tree, buildTree key item = Ok tree)
        <-> exists node, item = JObject node
                         /\ Forall (fun kv => valid (snd kv)) node).
Proof.
  split.
  - intros root key. rewrite add_makeNode.
    pose proof (proj1 (makeNode_accepts item) key) as H.
    destruct (makeNode key item) as [n|e].
    + split; [intros _; apply H; eauto | eauto].
    + split; [intros [r Hr]; discriminate|].
      intros Hv. apply H in Hv. destruct Hv as [n Hn]. discriminate.
  - intros key. unfold buildTree.
    destruct item as [ | b | f | s | l | node];
      try (split; [intros [t H]; discriminate | intros (m & H & _); discriminate]).
    unfold makeRootFolder. rewrite rangeEntries_makeEntryNodes.
    assert (Hen : (exists nodes, makeEntryNodes node = Ok nodes)
                  <-> Forall (fun kv => valid (snd kv)) node).
    { apply makeEntryNodes_ok_iff. apply Forall_forall. intros kv _ k.
      exact (proj1 (makeNode_accepts (snd kv)) k). }
    destruct (makeEntryNodes node) as [nodes|e].
    + split; [intros _|eauto]. exists node. split; [reflexivity|]. apply Hen. eauto.
    + split; [intros [t H]; discriminate|].
      intros (m & [= <-] & Hall). apply Hen in Hall.
      destruct Hall as [ns Hns]. discriminate.
Qed.

End Acceptance.

(* ================================================================= *)
(** ** What the dispatcher does to the receiver *)

Section Appending.
Context {Q : Quoter}.

(** X5.  [add] either fails, with an error that is the same for every
    receiver, or appends exactly one node to the receiver: a link at the end
    of [Links] or a folder at the end of [Folders], with the dispatched key
    as its key; the node of the receiver and the children it already has
    stay as they are, and the node appended is the same for every receiver. *)
Theorem add_appends_one (root : Folder) (key : string) (item : json) :
  (forall root',
     add root key item = Ok root' ->
     FolderNode root' = FolderNode root
     /\ ((exists link, Key (LinkNode link) = key
                       /\ Links root' = (Links root ++ [link])%list
                       /\ Folders root' = Folders root)
         \/ (exists sub, Key (FolderNode sub) = key
                         /\ Links root' = Links root
                         /\ Folders root' = (Folders root ++ [sub])%list))
     /\ exists n, root' = attach root n
                  /\ forall other, add other key item = Ok (attach other n))
  /\ (forall e other, add root key item = Err e -> add other key item = Err e).
Proof.
  rewrite add_makeNode. split.
  - intros root' H.
    destruct (makeNode key item) as [n|] eqn:Hn; [|discriminate].
    injection H as <-. destruct (makeNode_key _ _ _ Hn) as [Hk _].
    split; [destruct n; reflexivity|]. split.
    + destruct n as [l|f]; [left; exists l | right; exists f];
        (split; [exact Hk|]); split; reflexivity.
    + exists n. split; [reflexivity|]. intros other.
      rewrite add_makeNode, Hn. reflexivity.
  - intros e other H. rewrite add_makeNode.
    destruct (makeNode key item); [discriminate | exact H].
Qed.

End Appending.

(** The example link appended to a folder that holds a link already. *)
Lemma add_appends_one_witness :
  let first := mkLink (mkNode "Example" "#0" (exactInstant 13000000000000000)
                         zeroTime) "https://example.com" in
  let second := mkLink (mkNode "Other" "#1" (exactInstant 13000000000000001)
                          zeroTime) "https://example.org" in
  let root := mkFolder (mkNode "Bar" "bar" zeroTime zeroTime) [first] [] in
  @add asciiQuote root "#1" otherLink
  = Ok (mkFolder (mkNode "Bar" "bar" zeroTime zeroTime) [first; second] [])
  /\ FolderNode (mkFolder (mkNode "Bar" "bar" zeroTime zeroTime) [first; second] [])
     = FolderNode root.
Proof.
  cbv zeta. split; [reflexivity|].
  exact (proj1 (proj1 (@add_appends_one asciiQuote
                         (mkFolder (mkNode "Bar" "bar" zeroTime zeroTime)
                            [mkLink (mkNode "Example" "#0"
                                       (exactInstant 13000000000000000) zeroTime)
                               "https://example.com"] [])
                         "#1" otherLink) _ eq_refl)).
Defined.

(* ================================================================= *)
(** ** The keys of the children *)

(** The keys of the children of a folder: those of its links, then those of
    its subfolders. *)
Lemma childKeys_partition (nodes : list (Link + Folder)) :
  Permutation
    (map (fun l => Key (LinkNode l)) (linksOf nodes)
     ++ map (fun f => Key (FolderNode f)) (foldersOf nodes))%list
    (map nodeKey nodes)
  /\ (length (linksOf nodes) + length (foldersOf nodes) = length nodes)%nat.
Proof.
  induction nodes as [|[l|f] ns [IHp IHl]]; cbn [linksOf foldersOf flat_map map app nodeKey length].
  - split; [constructor | reflexivity].
  - fold (linksOf ns). fold (foldersOf ns).
    split; [now constructor | now rewrite <- IHl].
  - fold (linksOf ns). fold (foldersOf ns). split.
    + apply Permutation_sym, Permutation_cons_app, Permutation_sym. exact IHp.
    + rewrite <- IHl. cbn [length]. now rewrite <- plus_n_Sm.
Qed.

Section ChildKeys.
Context {Q : Quoter}.

Lemma makeNodes_keys (cc : list json) :
  forall i nodes,
    makeNodes i cc = Ok nodes ->
    map nodeKey nodes
    = map (fun j => "#" ++ Itoa (Z.of_nat j)) (seq i (length cc)).
Proof.
  induction cc as [|v rest IH]; intros i nodes; cbn [makeNodes].
  - intros [= <-]. reflexivity.
  - destruct (makeNode ("#" ++ Itoa (Z.of_nat i)) v) as [n|] eqn:Hn; [|discriminate].
    destruct (makeNodes (S i) rest) as [ns|] eqn:Hns; [|discriminate].
    intros [= <-]. cbn [map length seq].
    rewrite (IH _ _ Hns), (proj1 (makeNode_key _ _ _ Hn)). reflexivity.
Qed.

Lemma makeEntryNodes_keys (node : object) :
  forall nodes, makeEntryNodes node = Ok nodes -> map nodeKey nodes = map fst node.
Proof.
  induction node as [|[k v] rest IH]; intros nodes; cbn [makeEntryNodes].
  - intros [= <-]. reflexivity.
  - destruct (makeNode k v) as [n|] eqn:Hn; [|discriminate].
    destruct (makeEntryNodes rest) as [ns|] eqn:Hns; [|discriminate].
    intros [= <-]. cbn [map fst].
    rewrite (IH _ eq_refl), (proj1 (makeNode_key _ _ _ Hn)). reflexivity.
Qed.

(** X6.  A folder built by [makeChildFolder] has the key it was built
    under; without [children] it is empty; with a [children] array it has
    one child per element, and the keys of its links and subfolders together
    are the keys [#0], [#1], ... of the indexes of the array, each once: no
    two children of a folder share a key. *)
Theorem makeChildFolder_child_keys (key : string) (node : object) (folder : Folder) :
  makeChildFolder key node = Ok folder ->
  let keys := (map (fun l => Key (LinkNode l)) (Links folder)
               ++ map (fun f => Key (FolderNode f)) (Folders folder))%list in
  Key (FolderNode folder) = key
  /\ (lookup "children" node = None -> Links folder = [] /\ Folders folder = [])
  /\ (forall cc, lookup "children" node = Some (JArray cc) ->
        (length (Links folder) + length (Folders folder) = length cc)%nat
        /\ Permutation keys
             (map (fun j => "#" ++ Itoa (Z.of_nat j)) (seq 0 (length cc)))
        /\ NoDup keys).
Proof.
  intros Hf keys. split; [|split].
  - unfold makeChildFolder in Hf.
    destruct (read key node) as [nd|] eqn:Hread; [|discriminate].
    assert (Hnd : Key nd = key).
    { pose proof (read_ok_key _ key _ _ Hread) as H'. rewrite Hread in H'.
      injection H' as H'. rewrite H'. reflexivity. }
    destruct (lookup "children" node) as [c|].
    + destruct c as [ | b | f | s | cc | m]; try discriminate.
      rewrite rangeChildren_makeNodes in Hf.
      destruct (makeNodes 0 cc); [|discriminate].
      rewrite attach_all_eq in Hf. injection Hf as <-. exact Hnd.
    + injection Hf as <-. exact Hnd.
  - intros Hc. unfold makeChildFolder in Hf. rewrite Hc in Hf.
    destruct (read key node); [|discriminate]. injection Hf as <-. split; reflexivity.
  - intros cc Hc.
    destruct (makeChildFolder_nodes _ _ _ _ Hc Hf) as (nd & nodes & _ & Hn & ->).
    destruct (childKeys_partition nodes) as [Hperm Hlen].
    pose proof (makeNodes_keys _ _ _ Hn) as Hkeys.
    destruct (makeNodes_nth _ _ _ Hn) as [Hlength _].
    subst keys. cbn [Links Folders]. rewrite Hkeys in Hperm.
    split; [now rewrite Hlen|]. split; [exact Hperm|].
    apply (Permutation_NoDup (Permutation_sym Hperm)).
    apply Finite.Injective_map_NoDup; [|apply seq_NoDup].
    intros i j. apply childKey_inj.
Qed.

(** X7.  A folder built by [makeRootFolder] is named by its key and has no
    times; it has one child per entry of the mapping, and the keys of its
    links and subfolders together are the keys of the entries: they are
    distinct when the keys of the mapping are. *)
Theorem makeRootFolder_child_keys (key : string) (node : object) (folder : Folder) :
  makeRootFolder key node = Ok folder ->
  let keys := (map (fun l => Key (LinkNode l)) (Links folder)
               ++ map (fun f => Key (FolderNode f)) (Folders folder))%list in
  FolderNode folder = mkNode key key zeroTime zeroTime
  /\ (length (Links folder) + length (Folders folder) = length node)%nat
  /\ Permutation keys (map fst node)
  /\ (NoDup (map fst node) -> NoDup keys).
Proof.
  intros Hf keys. split; [exact (makeRootFolder_node _ _ _ Hf)|].
  unfold makeRootFolder in Hf. rewrite rangeEntries_makeEntryNodes in Hf.
  destruct (makeEntryNodes node) as [nodes|] eqn:Hn; [|discriminate].
  unfold newRootFolder in Hf. rewrite attach_all_eq in Hf. injection Hf as <-.
  destruct (childKeys_partition nodes) as [Hperm Hlen].
  pose proof (makeEntryNodes_keys _ _ Hn) as Hkeys.
  subst keys. cbn [Links Folders]. rewrite Hkeys in Hperm.
  split.
  - rewrite Hlen, <- (length_map nodeKey), Hkeys. apply length_map.
  - split; [exact Hperm|].
    intros Hnd. exact (Permutation_NoDup (Permutation_sym Hperm) Hnd).
Qed.

End ChildKeys.

(** The folder with the children link, folder, link. *)
Lemma makeChildFolder_child_keys_witness :
  exists folder,
    @makeChildFolder asciiQuote "bar" threeChildren = Ok folder
    /\ Key (FolderNode folder) = "bar"
    /\ NoDup (map (fun l => Key (LinkNode l)) (Links folder)
              ++ map (fun f => Key (FolderNode f)) (Folders folder))%list.
Proof.
  eexists. split; [reflexivity|].
  split.
  - exact (proj1 (@makeChildFolder_child_keys asciiQuote "bar" threeChildren _ eq_refl)).
  - exact (proj2 (proj2 (proj2 (proj2
             (@makeChildFolder_child_keys asciiQuote "bar" threeChildren _ eq_refl))
             [exampleLink; exampleFolder; otherLink] eq_refl))).
Defined.

(** The root of the typed minimal document. *)
Lemma makeRootFolder_child_keys_witness :
  exists folder,
    @makeRootFolder asciiQuote "roots"
      [("bookmark_bar", JObject (("type", JString "folder") :: barEntries))]
    = Ok folder
    /\ FolderNode folder = mkNode "roots" "roots" zeroTime zeroTime
    /\ (length (Links folder) + length (Folders folder) = 1)%nat.
Proof.
  eexists. split; [reflexivity|].
  split.
  - exact (proj1 (@makeRootFolder_child_keys asciiQuote "roots"
                    [("bookmark_bar", JObject (("type", JString "folder") :: barEntries))]
                    _ eq_refl)).
  - exact (proj1 (proj2 (@makeRootFolder_child_keys asciiQuote "roots"
                    [("bookmark_bar", JObject (("type", JString "folder") :: barEntries))]
                    _ eq_refl))).
Defined.

(* ================================================================= *)
(** ** The errors of [buildTree] and their diagnostics *)

Lemma qualify_head (key : string) (keys : list string) :
  qualify (key :: keys) = key \/ exists rest, qualify (key :: keys) = key ++ "/" ++ rest.
Proof.
  cbn [qualify]. destruct (nonEmpty (qualify keys)); [right | left]; eauto.
Qed.

Section Diagnostics.
Context {Q : Quoter}.


End Diagnostics.


(* ================================================================= *)
(** ** The generator on any sink *)

Section AnySink.
Context {W : Type} {SW : StringWriter W}.

Lemma writeAll_app (xs ys : list string) (dest : W) :
  writeAll (xs ++ ys) dest
  = match writeAll xs dest with
    | (dest', None) => writeAll ys dest'
    | (dest', Some err) => (dest', Some err)
    end.
Proof.
  revert dest. induction xs as [|x xs IH]; intros dest; cbn [writeAll app];
    [reflexivity|].
  destruct (WriteString dest x) as [d [e|]]; [reflexivity | apply IH].
Qed.

Lemma performs_nil : performs htmlNil [].
Proof. intros dest. reflexivity. Qed.

Lemma performs_raw (text : string) : performs (htmlRawText text) [text].
Proof.
  intros dest. unfold htmlRawText. cbn [writeAll].
  destruct (WriteString dest text) as [d [e|]]; reflexivity.
Qed.

Lemma performs_list (fns : list (fhtml W)) (texts : list (list string)) :
  Forall2 performs fns texts -> performs (htmlList fns) (concat texts).
Proof.
  induction 1 as [|f ts fns tss Hf _ IH]; intros dest; cbn [htmlList concat];
    [reflexivity|].
  rewrite writeAll_app, Hf.
  destruct (writeAll ts dest) as [d [e|]]; [reflexivity | apply IH].
Qed.

Lemma performs_tag (tag : string) (fn : fhtml W) (texts : list string) :
  performs fn texts ->
  performs (htmlTag tag fn)
           (("<" ++ tag ++ ">") :: (texts ++ [("</" ++ tag ++ ">")%string])%list).
Proof.
  intros Hfn dest. unfold htmlTag, htmlListArgs.
  rewrite (performs_list _ [[("<" ++ tag ++ ">")]; texts; [("</" ++ tag ++ ">")]]).
  - cbn [concat app]. rewrite ?app_nil_r. reflexivity.
  - each_emitter; [apply performs_raw | exact Hfn | apply performs_raw].
Qed.

Lemma performs_link (lnk : Link) :
  performs (htmlTag "dt" (htmlLink (URL lnk) (Name (LinkNode lnk)))) (linkWrites lnk).
Proof. exact (performs_tag "dt" _ [_] (performs_raw _)). Qed.

Lemma performs_folderLinks (folder : Folder) :
  performs (folderLinks folder) (linksWrites (Links folder)).
Proof.
  unfold folderLinks, linksWrites.
  destruct (Links folder) as [|l ls]; [apply performs_nil|].
  generalize (l :: ls). intros links.
  intros dest. rewrite (performs_tag "dl" _ (flat_map linkWrites links)); [reflexivity|].
  rewrite flat_map_concat_map. apply performs_list.
  induction links; constructor; [apply performs_link | assumption].
Qed.

Lemma performs_subfolders (folders : list Folder) :
  Forall (fun f => performs (folderItem f) (folderWrites f)) folders ->
  performs match folders with
           | [] => htmlNil
           | _ => htmlTag "ul" (htmlList (map folderItem folders))
           end
           (foldersWrites folders).
Proof.
  intros H. unfold foldersWrites.
  destruct folders as [|f fs]; [apply performs_nil|].
  revert H. generalize (f :: fs). intros l H dest.
  rewrite (performs_tag "ul" _ (flat_map folderWrites l)); [reflexivity|].
  rewrite flat_map_concat_map. apply performs_list.
  induction H; constructor; assumption.
Qed.

Lemma folderWrites_eq (folder : Folder) :
  folderWrites folder
  = (["<li>"; "<h4>"; EscapeString (Name (FolderNode folder)); "</h4>"]
     ++ linksWrites (Links folder) ++ foldersWrites (Folders folder) ++ ["</li>"])%list.
Proof. destruct folder as [node links [|f fs]]; reflexivity. Qed.

Lemma performs_folderItem (folder : Folder) :
  performs (folderItem folder) (folderWrites folder).
Proof.
  induction folder as [node links folders IH] using Folder_nested_ind.
  rewrite folderItem_eq, folderWrites_eq. intros dest.
  rewrite (performs_tag "li" _
             (["<h4>"; EscapeString (Name node); "</h4>"]
              ++ linksWrites links ++ foldersWrites folders)%list).
  - cbn [FolderNode Links Folders app]. rewrite <- !app_assoc. reflexivity.
  - unfold htmlListArgs.
    intros d.
    rewrite (performs_list _
               [["<h4>"; EscapeString (Name node); "</h4>"];
                linksWrites links; foldersWrites folders]).
    + cbn [concat app]. rewrite ?app_nil_r. reflexivity.
    + each_emitter.
      * apply (performs_tag "h4" _ [EscapeString (Name node)]). apply performs_raw.
      * apply (performs_folderLinks (mkFolder node links folders)).
      * cbn [Folders]. unfold folderList. apply performs_subfolders. exact IH.
Qed.

Lemma performs_folderList (folders : list Folder) :
  performs (folderList folders) (foldersWrites folders).
Proof.
  unfold folderList. apply performs_subfolders.
  apply Forall_forall. intros f _. apply performs_folderItem.
Qed.

(** A run of writes that fails has failed at one write: the writes before
    it succeeded, and the error and the sink are those of that write. *)
Lemma writeAll_fails (texts : list string) :
  forall dest dest' err,
    writeAll texts dest = (dest', Some err) ->
    exists before text after reached,
      texts = (before ++ text :: after)%list
      /\ writeAll before dest = (reached, None)
      /\ WriteString reached text = (dest', Some err).
Proof.
  induction texts as [|t rest IH]; intros dest dest' err; cbn [writeAll];
    [discriminate|].
  destruct (WriteString dest t) as [d [e|]] eqn:Hw.
  - intros [= <- <-]. exists [], t, rest, dest. repeat split. exact Hw.
  - intros H. destruct (IH _ _ _ H) as (before & text & after & reached & -> & Hb & Hf).
    exists (t :: before), text, after, reached.
    split; [reflexivity|]. split; [|exact Hf]. cbn [writeAll]. now rewrite Hw.
Qed.

Lemma writeAll_succeeds (texts : list string) :
  (forall dest text, snd (WriteString dest text) = None) ->
  forall dest, snd (writeAll texts dest) = None.
Proof.
  intros Hok. induction texts as [|t rest IH]; intros dest; cbn [writeAll];
    [reflexivity|].
  pose proof (Hok dest t) as Ht.
  destruct (WriteString dest t) as [d [e|]]; [discriminate | apply IH].
Qed.

Lemma foldersToHTML_writeAll (folders : list Folder) (dest : W) :
  foldersToHTML folders dest = writeAll (documentWrites folders) dest.
Proof.
  unfold foldersToHTML, htmlListArgs, documentWrites.
  rewrite (performs_list _
             [[htmlHeader]; ("<body>" :: foldersWrites folders ++ ["</body>"])%list;
              [("</html>" ++ newline)]]).
  - cbn [concat app]. rewrite <- !app_assoc. reflexivity.
  - each_emitter; [apply performs_raw | | apply performs_raw].
    apply (performs_tag "body"). apply performs_folderList.
Qed.

(** X9.  On every sink, rendering is a flat sequence of writes: the header,
    [<body>], then for each folder its tags, its escaped name and one write
    per link anchor, depth first in the order of the tree, then [</body>]
    and the closing line; each text is handed to [WriteString] once, in this
    order, and nothing else is written.  The same holds of the emitters the
    document is made of: the list of folders, one folder, and its links. *)
Theorem foldersToHTML_writes (folders : list Folder) (folder : Folder) :
  performs (foldersToHTML folders) (documentWrites folders)
  /\ performs (folderList folders) (foldersWrites folders)
  /\ performs (folderItem folder) (folderWrites folder)
  /\ performs (folderLinks folder) (linksWrites (Links folder)).
Proof.
  split; [intros dest; apply foldersToHTML_writeAll|].
  split; [apply performs_folderList|].
  split; [apply performs_folderItem | apply performs_folderLinks].
Qed.

(** X10.  Rendering fails exactly when a write fails, and stops there: an
    error of [foldersToHTML] is the error of one write, every write before
    it has succeeded, no write after it is attempted (the sink returned is
    the sink of the failing write); on a sink whose writes never fail,
    rendering never fails. *)
Theorem foldersToHTML_fails_fast (folders : list Folder) (dest : W) :
  (forall dest' err,
     foldersToHTML folders dest = (dest', Some err) ->
     exists before text after reached,
       documentWrites folders = (before ++ text :: after)%list
       /\ writeAll before dest = (reached, None)
       /\ WriteString reached text = (dest', Some err))
  /\ ((forall d text, snd (WriteString d text) = None) ->
      snd (foldersToHTML folders dest) = None).
Proof.
  rewrite foldersToHTML_writeAll. split.
  - intros dest' err. apply writeAll_fails.
  - intros Hok. apply writeAll_succeeds. exact Hok.
Qed.

End AnySink.

(** A sink that takes five writes: the header, [<body>], [<ul>], [<li>] and
    [<h4>] are written, the name is refused. *)
Lemma foldersToHTML_fails_fast_witness :
  foldersToHTML [linkFirstTree] (5%nat, EmptyString)
  = ((0%nat, htmlHeader ++ "<body><ul><li><h4>"), Some (ErrorString "write failed"))
  /\ exists before text after reached,
       documentWrites [linkFirstTree] = (before ++ text :: after)%list
       /\ writeAll before (5%nat, EmptyString) = (reached, None)
       /\ WriteString reached text
          = ((0%nat, htmlHeader ++ "<body><ul><li><h4>"),
             Some (ErrorString "write failed")).
Proof.
  split; [reflexivity|].
  exact (proj1 (foldersToHTML_fails_fast [linkFirstTree] (5%nat, EmptyString))
           _ _ eq_refl).
Defined.

(* ================================================================= *)
(** ** What is never written *)

Lemma linksWrites_erase (links : list Link) :
  linksWrites (map (fun lnk => mkLink (eraseNode (LinkNode lnk)) (URL lnk)) links)
  = linksWrites links.
Proof.
  unfold linksWrites. destruct links as [|l ls]; [reflexivity|].
  cbn [map]. do 2 f_equal.
  change (flat_map linkWrites
            (map (fun lnk => mkLink (eraseNode (LinkNode lnk)) (URL lnk)) (l :: ls))
          = flat_map linkWrites (l :: ls)).
  generalize (l :: ls). intros links.
  induction links as [|x xs IH]; [reflexivity|].
  cbn [map flat_map]. now rewrite IH.
Qed.

Lemma foldersWrites_erase_if (folders : list Folder) :
  Forall (fun f => folderWrites (eraseMeta f) = folderWrites f) folders ->
  foldersWrites (map eraseMeta folders) = foldersWrites folders.
Proof.
  intros H. unfold foldersWrites. destruct folders as [|f fs]; [reflexivity|].
  cbn [map]. do 2 f_equal.
  change (flat_map folderWrites (map eraseMeta (f :: fs))
          = flat_map folderWrites (f :: fs)).
  revert H. generalize (f :: fs). intros l H.
  induction H as [|x xs Hx _ IH]; [reflexivity|].
  cbn [map flat_map]. now rewrite Hx, IH.
Qed.

Lemma folderWrites_erase (folder : Folder) :
  folderWrites (eraseMeta folder) = folderWrites folder.
Proof.
  induction folder as [node links folders IH] using Folder_nested_ind.
  rewrite !folderWrites_eq. cbn [eraseMeta FolderNode Links Folders eraseNode Name].
  now rewrite linksWrites_erase, (foldersWrites_erase_if folders IH).
Qed.

(** X11.  Rendering writes names and URLs only: on every sink, the folders
    with the key, the added time and the modified time of every folder and
    link cleared are rendered by the same writes.  Keys and times never
    reach the output. *)
Theorem foldersToHTML_ignores_keys_and_times
        {W : Type} {SW : StringWriter W} (folders : list Folder) (dest : W) :
  foldersToHTML (map eraseMeta folders) dest = foldersToHTML folders dest.
Proof.
  rewrite !foldersToHTML_writeAll. unfold documentWrites.
  rewrite foldersWrites_erase_if; [reflexivity|].
  apply Forall_forall. intros f _. apply folderWrites_erase.
Qed.

(* ================================================================= *)
(** ** Links directly below the root *)

Lemma foldersOf_app (xs ys : list (Link + Folder)) :
  foldersOf (xs ++ ys)%list = (foldersOf xs ++ foldersOf ys)%list.
Proof. unfold foldersOf. apply flat_map_app. Qed.

Section RootLinks.
Context {Q : Quoter}.

Lemma makeEntryNodes_app (xs ys : object) :
  makeEntryNodes (xs ++ ys)%list
  = match makeEntryNodes xs with
    | Err err => Err err
    | Ok nodes =>
        match makeEntryNodes ys with
        | Err err => Err err
        | Ok nodes' => Ok (nodes ++ nodes')%list
        end
    end.
Proof.
  induction xs as [|[k v] rest IH]; cbn [app makeEntryNodes].
  - destruct (makeEntryNodes ys); reflexivity.
  - destruct (makeNode k v) as [n|]; [|reflexivity].
    rewrite IH. destruct (makeEntryNodes rest); [|reflexivity].
    destruct (makeEntryNodes ys); reflexivity.
Qed.

Lemma convert_nodes (node : object) :
  convert (JObject node)
  = match makeEntryNodes node with
    | Ok nodes => Ok (output (foldersToHTML (foldersOf nodes)))
    | Err err => Err (mapError "roots" err)
    end.
Proof.
  unfold convert, buildTree, makeRootFolder.
  rewrite rangeEntries_makeEntryNodes.
  destruct (makeEntryNodes node) as [nodes|]; [|reflexivity].
  unfold newRootFolder. rewrite attach_all_eq. reflexivity.
Qed.

(** X12.  [main] renders [root.Folders] only: a link that is an entry of the
    [roots] mapping itself is parsed and then left out.  The document, or the
    error, of a [roots] mapping with a valid link among its entries is that
    of the mapping without this entry. *)
Theorem convert_drops_root_links (before after : object) (k : string) (v : json) :
  hasType "url" v = true ->
  valid v ->
  convert (JObject (before ++ (k, v) :: after)%list)
  = convert (JObject (before ++ after)%list).
Proof.
  intros Hurl Hvalid.
  destruct (proj2 (proj1 (makeNode_accepts v) k) Hvalid) as [n Hn].
  destruct (makeNode_key _ _ _ Hn) as [_ Hkind]. rewrite Hurl in Hkind.
  destruct n as [l|f]; [|discriminate].
  rewrite !convert_nodes, !makeEntryNodes_app. cbn [makeEntryNodes]. rewrite Hn.
  destruct (makeEntryNodes before) as [nb|]; [|reflexivity].
  destruct (makeEntryNodes after) as [na|]; [|reflexivity].
  rewrite !foldersOf_app. reflexivity.
Qed.

End RootLinks.

(** The example link as an entry of [roots], before the bookmark bar. *)
Lemma convert_drops_root_links_witness :
  hasType "url" exampleLink = true
  /\ @convert asciiQuote
       (JObject [("first", exampleLink);
                 ("bookmark_bar", JObject (("type", JString "folder") :: barEntries))])
     = Ok typedDocument.
Proof.
  split; [reflexivity|].
  transitivity
    (@convert asciiQuote
       (JObject ([] ++ [("bookmark_bar",
                         JObject (("type", JString "folder") :: barEntries))])%list));
    [|reflexivity].
  apply (@convert_drops_root_links asciiQuote []
           [("bookmark_bar", JObject (("type", JString "folder") :: barEntries))]
           "first" exampleLink eq_refl).
  apply (valid_link _ "https://example.com"); [reflexivity | | reflexivity].
  split; [exists "Example"; reflexivity|].
  split; [exists "13000000000000000", 13000000000000000; split; reflexivity|].
  left. reflexivity.
Defined.

(* ================================================================= *)
(** ** What the output tells *)

Lemma unescapeFive_EscapeString (s : string) : unescapeFive (EscapeString s) = s.
Proof.
  induction s as [|c s IH]; [reflexivity|].
  cbn [EscapeString]. unfold escapeByte.
  destruct (Ascii.eqb_spec c "&") as [->|Hamp]; [cbn; now rewrite IH|].
  destruct (Ascii.eqb_spec c "'") as [->|Hapo]; [cbn; now rewrite IH|].
  destruct (Ascii.eqb_spec c "<") as [->|Hlt]; [cbn; now rewrite IH|].
  destruct (Ascii.eqb_spec c ">") as [->|Hgt]; [cbn; now rewrite IH|].
  destruct (Ascii.eqb_spec c "034") as [->|Hquo]; [cbn; now rewrite IH|].
  cbn [append unescapeFive].
  apply Ascii.eqb_neq in Hamp. rewrite Hamp. cbn [negb]. now rewrite IH.
Qed.

(** Two texts that agree up to the first occurrence of a byte. *)
Lemma split_at_byte (q : ascii) (a : string) :
  forall a' b b',
    containsByte q a = false -> containsByte q a' = false ->
    a ++ String q b = a' ++ String q b' -> a = a' /\ b = b'.
Proof.
  induction a as [|x a IH]; intros [|x' a'] b b' Ha Ha' H; cbn in *.
  - injection H as <-. split; reflexivity.
  - injection H as <- _. rewrite Ascii.eqb_refl in Ha'. discriminate.
  - injection H as -> _. rewrite Ascii.eqb_refl in Ha. discriminate.
  - injection H as <- H. apply orb_false_elim in Ha, Ha'.
    destruct (IH a' b b' (proj2 Ha) (proj2 Ha') H) as [-> ->]. split; reflexivity.
Qed.



(* ================================================================= *)
(** ** The output file *)

Section OutputFile.
Context {S : Type} {os : OS S}.


End OutputFile.

Lemma withoutFile_absent (name : string) (fs : list (string * string)) :
  existsb (fun entry => String.eqb name (fst entry)) (withoutFile name fs) = false.
Proof.
  unfold withoutFile. induction fs as [|[n c] rest IH]; [reflexivity|].
  cbn [filter fst]. destruct (String.eqb name n) eqn:E; cbn [negb]; [exact IH|].
  cbn [existsb fst]. now rewrite E.
Qed.


(* ================================================================= *)
(** ** The first error *)

Section FirstError.
Context {Q : Quoter}.

Lemma makeNodes_app (xs ys : list json) :
  forall i,
    makeNodes i (xs ++ ys)%list
    = match makeNodes i xs with
      | Err err => Err err
      | Ok nodes =>
          match makeNodes (i + length xs) ys with
          | Err err => Err err
          | Ok nodes' => Ok (nodes ++ nodes')%list
          end
      end.
Proof.
  induction xs as [|x xs IH]; intros i; cbn [app makeNodes length].
  - rewrite <- plus_n_O. destruct (makeNodes i ys); reflexivity.
  - destruct (makeNode ("#" ++ Itoa (Z.of_nat i)) x) as [n|]; [|reflexivity].
    rewrite IH, <- plus_n_Sm. cbn [plus].
    destruct (makeNodes (Datatypes.S i) xs); [|reflexivity].
    destruct (makeNodes (Datatypes.S (i + length xs)) ys); reflexivity.
Qed.

(** X15.  The builder stops at the first child that fails.  In a folder
    whose header reads, when the children before some child are all valid
    and that child fails, the folder fails with the error of that child
    under the key of the folder, whatever comes after it in the array: the
    later children are not looked at, and cannot change the error. *)
Theorem makeChildFolder_first_error
        (key : string) (node : object) (nd : Node)
        (before after : list json) (bad : json) (e : error) :
  read key node = Ok nd ->
  lookup "children" node = Some (JArray (before ++ bad :: after)%list) ->
  Forall valid before ->
  makeNode ("#" ++ Itoa (Z.of_nat (length before))) bad = Err e ->
  makeChildFolder key node = Err (mapError key e).
Proof.
  intros Hread Hc Hvalid Hbad.
  unfold makeChildFolder. rewrite Hread, Hc, rangeChildren_makeNodes, makeNodes_app.
  assert (Hok : exists nodes, makeNodes 0 before = Ok nodes).
  { apply makeNodes_ok_iff; [|exact Hvalid].
    apply Forall_forall. intros v _ k. exact (proj1 (makeNode_accepts v) k). }
  destruct Hok as [nodes Hnodes]. rewrite Hnodes.
  cbn [plus makeNodes]. rewrite Hbad. reflexivity.
Qed.

End FirstError.

(** A number after a link: the folder fails at [#1], also when the element
    after it is broken too. *)
Lemma makeChildFolder_first_error_witness :
  let node := [("type", JString "folder"); ("name", JString "Bar");
               ("date_added", JString "13000000000000000");
               ("children", JArray [exampleLink; JBool true; JNull])] in
  @makeChildFolder asciiQuote "bar" node
  = Err (ParserError "bar/#1" "Unexpected node type").
Proof.
  cbv zeta.
  apply (@makeChildFolder_first_error asciiQuote "bar"
           [("type", JString "folder"); ("name", JString "Bar");
            ("date_added", JString "13000000000000000");
            ("children", JArray [exampleLink; JBool true; JNull])]
           (mkNode "Bar" "bar" (exactInstant 13000000000000000) zeroTime)
           [exampleLink] [JNull] (JBool true)
           (ParserError "#1" "Unexpected node type") eq_refl eq_refl).
  - constructor; [|constructor].
    apply (valid_link _ "https://example.com"); [reflexivity | | reflexivity].
    split; [exists "Example"; reflexivity|].
    split; [exists "13000000000000000", 13000000000000000; split; reflexivity|].
    left. reflexivity.
  - reflexivity.
Defined.

(* ================================================================= *)
(** ** Composition of emitters *)

(** X16.  [htmlList] composes emitters as a monoid, on every sink: the list
    of no emitter is [htmlNil], the list of one emitter is that emitter, and
    the list of two lists put together runs the first list and then, unless
    it failed, the second on the sink the first one left. *)
Theorem htmlList_composes {W : Type} {SW : StringWriter W}
        (xs ys : list (fhtml W)) (f : fhtml W) (dest : W) :
  htmlList [] dest = htmlNil dest
  /\ htmlList [f] dest = f dest
  /\ htmlList (xs ++ ys)%list dest
     = match htmlList xs dest with
       | (dest', None) => htmlList ys dest'
       | (dest', Some err) => (dest', Some err)
       end
  /\ htmlList [htmlList xs; htmlList ys] dest = htmlList (xs ++ ys)%list dest.
Proof.
  assert (Happ : forall d, htmlList (xs ++ ys)%list d
                           = match htmlList xs d with
                             | (d', None) => htmlList ys d'
                             | (d', Some err) => (d', Some err)
                             end).
  { induction xs as [|x xs IH]; intros d; cbn [app htmlList]; [reflexivity|].
    destruct (x d) as [d' [e|]]; [reflexivity | apply IH]. }
  split; [reflexivity|]. split; [|split].
  - cbn [htmlList]. destruct (f dest) as [d [e|]]; reflexivity.
  - apply Happ.
  - rewrite Happ. cbn [htmlList].
    destruct (htmlList xs dest) as [d [e|]]; [reflexivity|].
    destruct (htmlList ys d) as [d' [e|]]; reflexivity.
Qed.

(* ================================================================= *)
(** ** Nesting of the writes *)

Lemma nested_app (xs ys : list string) :
  nested xs -> nested ys -> nested (xs ++ ys)%list.
Proof.
  induction 1 as [|t rest Ht _ IH|tag inner rest Hi _ _ IH]; intros Hys.
  - exact Hys.
  - cbn [app]. apply nested_leaf; [exact Ht | exact (IH Hys)].
  - cbn [app]. rewrite <- app_assoc. cbn [app].
    apply nested_tag; [exact Hi | exact (IH Hys)].
Qed.

Lemma nested_wrap (tag : string) (inner : list string) :
  nested inner ->
  nested (("<" ++ tag ++ ">") :: (inner ++ [("</" ++ tag ++ ">")%string])%list).
Proof. intros H. apply (nested_tag tag inner []); [exact H | constructor]. Qed.

Lemma nested_linkWrites (lnk : Link) : nested (linkWrites lnk).
Proof.
  apply (nested_wrap "dt" [_]). apply nested_leaf; [|constructor].
  right. exists (URL lnk), (Name (LinkNode lnk)). reflexivity.
Qed.

Lemma nested_flat_map {A : Type} (f : A -> list string) (l : list A) :
  Forall (fun x => nested (f x)) l -> nested (flat_map f l).
Proof.
  induction 1 as [|x xs Hx _ IH]; [constructor|].
  cbn [flat_map]. apply nested_app; assumption.
Qed.

Lemma nested_linksWrites (links : list Link) : nested (linksWrites links).
Proof.
  unfold linksWrites. destruct links as [|l ls]; [constructor|].
  apply (nested_wrap "dl"). apply nested_flat_map.
  apply Forall_forall. intros x _. apply nested_linkWrites.
Qed.

Lemma nested_subfolders (folders : list Folder) :
  Forall (fun f => nested (folderWrites f)) folders ->
  nested (foldersWrites folders).
Proof.
  intros H. unfold foldersWrites. destruct folders as [|f fs]; [constructor|].
  apply (nested_wrap "ul"). apply nested_flat_map. exact H.
Qed.

Lemma nested_folderWrites (folder : Folder) : nested (folderWrites folder).
Proof.
  induction folder as [node links folders IH] using Folder_nested_ind.
  rewrite folderWrites_eq. cbn [FolderNode Links Folders app].
  rewrite app_assoc.
  apply (nested_wrap "li"
           ("<h4>" :: EscapeString (Name node) :: "</h4>"
            :: (linksWrites links ++ foldersWrites folders)%list)).
  apply (nested_tag "h4" [EscapeString (Name node)]).
  - apply nested_leaf; [|constructor]. left. apply wellEscaped_EscapeString.
  - apply nested_app; [apply nested_linksWrites | apply nested_subfolders; exact IH].
Qed.

(** X17.  What is written after the header is properly nested: on every
    sink, [foldersToHTML] writes the header, then a sequence in which
    [<body>] and every [<ul>], [<li>], [<h4>], [<dl>] and [<dt>] is closed
    by its own closing tag, in order, around escaped text, link anchors and
    sequences of the same kind, then the closing line.  A tag is never a
    leaf: escaped text holds no [<]. *)
Theorem foldersToHTML_nested {W : Type} {SW : StringWriter W}
        (folders : list Folder) (dest : W) :
  (exists body,
     foldersToHTML folders dest
     = writeAll (htmlHeader :: body ++ [("</html>" ++ newline)%string])%list dest
     /\ nested body)
  /\ (forall text, wellEscaped text = true -> containsByte "<" text = false).
Proof.
  assert (Hfolders : nested (foldersWrites folders)).
  { apply nested_subfolders. apply Forall_forall. intros f _.
    apply nested_folderWrites. }
  split.
  - exists ("<body>" :: (foldersWrites folders ++ ["</body>"])%list). split.
    + rewrite foldersToHTML_writeAll. unfold documentWrites.
      cbn [app]. rewrite <- app_assoc. reflexivity.
    + apply (nested_wrap "body"). exact Hfolders.
  - intros text Ht. apply wellEscaped_no_raw; [exact Ht | now left].
Qed.
